(** * sequence_face_landmarks: a shallow embedding of
    [sequence_face_landmarks/sequence_face_landmarks.cpp]

    The file follows the C++ source top to bottom: the geometry and
    sequence types, the session object [SequenceFaceLandmarksImpl] with its
    methods ([addFrame], [clear], [load], [save], [setModel], [size],
    [operator[]]), and the four [render] overloads.

    Conventions.
    - A C++ [int] / protobuf [int32] is a [Z]; the values a 32-bit field can
      hold are singled out by [int32_range].  A [size_t] index is a [nat].
    - A method of the session object is a state transformer
      [SequenceFaceLandmarksImpl -> outcome A * SequenceFaceLandmarksImpl]:
      the object survives an exception, so the state at the throw is kept.
    - Exceptions are values ([Throw]); an unchecked out-of-range vector
      access is [Undefined].
    - dlib, OpenCV, the protobuf runtime, the file system and the 32-bit
      float arithmetic are collaborators that the source only calls; they
      are taken as interfaces ([FloatOps], [Vision], [Protobuf], [Paths]),
      and a statement over an interface holds for all its implementations.
      [Stub] and [Wire] give implementations to run the session on concrete
      inputs; [Binary32] is the IEEE 754 single-precision arithmetic of
      [float], for the statements about rounding. *)

From Stdlib Require Import ZArith NArith List String Lia.
From Stdlib Require Import Strings.Byte.
From Stdlib Require Import Decimal DecimalString.
From Stdlib Require Import QArith Qround Qabs.
From Stdlib Require Import Floats.SpecFloat.
From stdpp Require Import base option list gmap strings.

Local Open Scope string_scope.
Local Open Scope list_scope.
Local Open Scope Z_scope.

(** ** Geometry and sequence types (declared in [sfl/sequence_face_landmarks.h]) *)

(** [cv::Point]: integer pixel coordinates. *)
Module Point.
Record t : Type := mk { x : Z; y : Z }.
End Point.

(** [cv::Rect]: integer origin and size. *)
Module Rect.
Record t : Type := mk { x : Z; y : Z; width : Z; height : Z }.
(** The default-constructed rectangle. *)
Definition zero : t := mk 0 0 0 0.
End Rect.

(** [struct Face { cv::Rect bbox; std::vector<cv::Point> landmarks; }] *)
Module Face.
Record t : Type := mk { bbox : Rect.t; landmarks : list Point.t }.
(** The value-initialised face that [std::vector::resize] inserts. *)
Definition default : t := mk Rect.zero [].
End Face.

(** [struct Frame { std::vector<Face> faces; int width, height; }] *)
Module Frame.
Record t : Type := mk { faces : list Face.t; width : Z; height : Z }.
End Frame.

(** The values of a 32-bit signed field. *)
Definition int32_range (v : Z) : Prop := -2147483648 <= v <= 2147483647.

Definition point_in_range (p : Point.t) : Prop :=
  int32_range (Point.x p) /\ int32_range (Point.y p).

Definition rect_in_range (r : Rect.t) : Prop :=
  int32_range (Rect.x r) /\ int32_range (Rect.y r) /\
  int32_range (Rect.width r) /\ int32_range (Rect.height r).

Definition face_in_range (f : Face.t) : Prop :=
  rect_in_range (Face.bbox f) /\ Forall point_in_range (Face.landmarks f).

Definition frame_in_range (f : Frame.t) : Prop :=
  int32_range (Frame.width f) /\ int32_range (Frame.height f) /\
  Forall face_in_range (Frame.faces f).

(** An in-memory sequence: every numeric field is a C++ [int]. *)
Definition sequence_in_range (s : list Frame.t) : Prop :=
  Forall frame_in_range s.

(** ** Outcomes and the state monad of the methods *)

Inductive exn : Type :=
| runtime_error (what : string)   (* [std::runtime_error], thrown by this file *)
| library_error (what : string).  (* an exception raised inside dlib or OpenCV *)

Inductive outcome (A : Type) : Type :=
| Ok (a : A)
| Throw (e : exn)
| Undefined.                      (* undefined behaviour: unchecked access out of range *)
Arguments Ok {A} a.
Arguments Throw {A} e.
Arguments Undefined {A}.

(** What a call into dlib or OpenCV gives back. *)
Inductive lib_result (A : Type) : Type :=
| LibOk (a : A)
| LibThrow (what : string).
Arguments LibOk {A} a.
Arguments LibThrow {A} what.

Definition M (St A : Type) : Type := St -> outcome A * St.

Definition ret {St A} (a : A) : M St A := fun s => (Ok a, s).

Definition bind {St A B} (m : M St A) (k : A -> M St B) : M St B :=
  fun s =>
    match m s with
    | (Ok a, s') => k a s'
    | (Throw e, s') => (Throw e, s')
    | (Undefined, s') => (Undefined, s')
    end.

Definition throw {St A} (e : exn) : M St A := fun s => (Throw e, s).
Definition undefined {St A} : M St A := fun s => (Undefined, s).
Definition get {St} : M St St := fun s => (Ok s, s).
Definition modify {St} (f : St -> St) : M St unit := fun s => (Ok tt, f s).

(** Run a library call; its exception propagates unchanged. *)
Definition call {St A} (r : lib_result A) : M St A :=
  match r with
  | LibOk a => ret a
  | LibThrow what => throw (library_error what)
  end.

Declare Scope method_scope.
Delimit Scope method_scope with method.
Notation "x <- m ;; k" := (bind m (fun x => k))
  (at level 100, m at next level, right associativity) : method_scope.
Notation "m ;; k" := (bind m (fun _ => k))
  (at level 100, right associativity) : method_scope.
Local Open Scope method_scope.

(** [for (size_t i : idx) body(i)], left to right, stopping at the first
    iteration that does not complete. *)
Fixpoint for_each {St} (idx : list nat) (body : nat -> M St unit) : M St unit :=
  match idx with
  | [] => ret tt
  | i :: rest => body i ;; for_each rest body
  end.

(** [for (size_t i = lo; i <= hi; ++i) body(i)] *)
Definition for_range {St} (lo hi : nat) (body : nat -> M St unit) : M St unit :=
  for_each (seq lo (S hi - lo)) body.

(** [for (size_t i = 0; i < n; ++i) body(i)] *)
Definition for_below {St} (n : nat) (body : nat -> M St unit) : M St unit :=
  for_each (seq 0 n) body.

(** ** Collaborators *)

(** The 32-bit [float] operations the source applies to coordinates. *)
Class FloatOps : Type := {
  float : Type;
  f_one : float;                      (* the literal [1.0f] *)
  f_neqb : float -> float -> bool;    (* [!=] *)
  f_of_Z : Z -> float;                (* conversion of an [int] or [long] *)
  f_div : float -> float -> float;    (* [/] *)
  f_round : float -> float;           (* [std::round] *)
  f_to_int : float -> Z               (* the cast [(int)] *)
}.

(** [cv::Mat], as far as the source looks at it. *)
Record Mat (pixels : Type) : Type := mkMat {
  cols : Z;
  rows : Z;
  channels : Z;
  data : pixels
}.
Arguments mkMat {pixels} _ _ _ _.
Arguments cols {pixels} _.
Arguments rows {pixels} _.
Arguments channels {pixels} _.
Arguments data {pixels} _.

(** [dlib::rectangle], through the four accessors the source calls. *)
Module rectangle.
Record t : Type := mk { left : Z; top : Z; width : Z; height : Z }.
End rectangle.

(** [dlib::point]: [long] coordinates. *)
Module dpoint.
Record t : Type := mk { x : Z; y : Z }.
End dpoint.

(** The template argument of [extract_landmarks] and [dlib::cv_image]. *)
Inductive pixel_type : Type := bgr_pixel | unsigned_char.

(** [dlib::pixel_traits<pixel_type>::num], the channels of a pixel type. *)
Definition pixel_channels (pt : pixel_type) : Z :=
  match pt with
  | bgr_pixel => 3
  | unsigned_char => 1
  end.

(** OpenCV's [resize] and dlib's image wrapper, detector and predictor.
    [full_object_detection] is the list of its parts ([num_parts], [part]). *)
Class Vision `{FloatOps} : Type := {
  pixels : Type;
  dlib_image : Type;
  frontal_face_detector : Type;
  shape_predictor : Type;
  default_detector : frontal_face_detector;          (* default-constructed member *)
  default_predictor : shape_predictor;               (* default-constructed member *)
  cv_resize : Mat pixels -> float -> float -> lib_result (Mat pixels);
  cv_image : pixel_type -> Mat pixels -> lib_result dlib_image;
  get_frontal_face_detector : frontal_face_detector;
  (* [dlib::deserialize(path) >> model]: the predictor object after the call
     and, when the call threw, the exception's message *)
  deserialize : string -> shape_predictor -> shape_predictor * option string;
  detect : frontal_face_detector -> dlib_image -> lib_result (list rectangle.t);
  predict : shape_predictor -> dlib_image -> rectangle.t -> lib_result (list dpoint.t)
}.

(** ** The serialised messages ([sequence_face_landmarks.pb.h]) *)

(** Modelled from the spec: the protobuf schema [sequence_face_landmarks.proto]
    and the classes generated from it are not part of the source file; the
    messages follow the spec's schema (section 4.3)
    [Sequence := Frame*], [Frame := { width, height : int32, Face* }],
    [Face := { BoundingBox, Point* }],
    [BoundingBox := { left, top, width, height : int32 }],
    [Point := { x, y : int32 }].
    A singular message field ([bbox]) is present or absent; its getter gives
    the all-zero default instance when absent, as generated code does. *)
Module io.
Module Point.
Record t : Type := mk { x : Z; y : Z }.
End Point.
Module BoundingBox.
Record t : Type := mk { left : Z; top : Z; width : Z; height : Z }.
Definition default_instance : t := mk 0 0 0 0.
End BoundingBox.
Module Face.
Record t : Type := mk { has_bbox : option BoundingBox.t; landmarks : list Point.t }.
(** the getter [bbox()] *)
Definition bbox (f : t) : BoundingBox.t :=
  match has_bbox f with
  | Some b => b
  | None => BoundingBox.default_instance
  end.
End Face.
Module Frame.
Record t : Type := mk { width : Z; height : Z; faces : list Face.t }.
End Frame.
Module Sequence.
Record t : Type := mk { frames : list Frame.t }.
Definition empty : t := mk [].
End Sequence.

Definition point_in_range (p : Point.t) : Prop :=
  int32_range (Point.x p) /\ int32_range (Point.y p).
Definition bbox_in_range (b : BoundingBox.t) : Prop :=
  int32_range (BoundingBox.left b) /\ int32_range (BoundingBox.top b) /\
  int32_range (BoundingBox.width b) /\ int32_range (BoundingBox.height b).
Definition face_in_range (f : Face.t) : Prop :=
  match Face.has_bbox f with Some b => bbox_in_range b | None => True end /\
  Forall point_in_range (Face.landmarks f).
Definition frame_in_range (f : Frame.t) : Prop :=
  int32_range (Frame.width f) /\ int32_range (Frame.height f) /\
  Forall face_in_range (Frame.faces f).
(** A message whose every field is an [int32]. *)
Definition sequence_in_range (s : Sequence.t) : Prop :=
  Forall frame_in_range (Sequence.frames s).
End io.

(** The protobuf runtime: [Message::SerializeToOstream] and
    [Message::ParseFromIstream] on [io::Sequence].  The parser is handed the
    bytes the stream delivers, or [None] when the stream could not be opened;
    it gives back the message object as it stands after the call and the
    call's boolean result. *)
Class Protobuf : Type := {
  SerializeToOstream : io.Sequence.t -> list byte;
  ParseFromIstream : option (list byte) -> io.Sequence.t * bool
}.

(** The files on disk: the content of every existing file, under the
    file's identity (its canonical name). *)
Abbreviation file_store := (gmap string (list byte)).

(** How the environment resolves the path given to a file stream: the file
    the path names, or [None] when a stream on it cannot be opened (the
    empty path, a directory that does not exist).  Several paths can name
    the same file. *)
Class Paths : Type := {
  file_of : string -> option string
}.

(** [std::ifstream input(filePath, std::ifstream::binary)]: the bytes the
    stream delivers, or [None] when it is not open, because the path cannot
    be opened or names no existing file. *)
Definition ifstream `{Paths} (filePath : string) (fs : file_store)
  : option (list byte) :=
  match file_of filePath with
  | Some file => fs !! file
  | None => None
  end.

(** [std::ofstream output(filePath, std::fstream::trunc | std::fstream::binary)]
    and the write of [bytes] to it: the file is created or replaced; when
    the stream is not open nothing is written, and no exception says so. *)
Definition ofstream `{Paths} (filePath : string) (bytes : list byte)
    (fs : file_store) : file_store :=
  match file_of filePath with
  | Some file => <[file := bytes]> fs
  | None => fs
  end.

(** ** The session object *)

(** [std::vector::resize(n)]: drop the tail or pad with default values. *)
Definition vec_resize {A} (n : nat) (d : A) (v : list A) : list A :=
  firstn n v ++ repeat d (n - length v).

(** Split a vector into everything before [back()] and [back()]. *)
Definition unsnoc {A} (v : list A) : option (list A * A) :=
  match rev v with
  | [] => None
  | b :: front => Some (rev front, b)
  end.

Section Session.
Context `{V : Vision}.

Record SequenceFaceLandmarksImpl : Type := mkImpl {
  m_frames : list Frame.t;
  m_frame_scale : float;
  m_model_path : string;
  m_detector : frontal_face_detector;
  m_pose_model : shape_predictor
}.

Definition set_frames (fs : list Frame.t) (s : SequenceFaceLandmarksImpl) :=
  mkImpl fs (m_frame_scale s) (m_model_path s) (m_detector s) (m_pose_model s).
Definition set_model_path (p : string) (s : SequenceFaceLandmarksImpl) :=
  mkImpl (m_frames s) (m_frame_scale s) p (m_detector s) (m_pose_model s).
Definition set_detector (d : frontal_face_detector) (s : SequenceFaceLandmarksImpl) :=
  mkImpl (m_frames s) (m_frame_scale s) (m_model_path s) d (m_pose_model s).
Definition set_pose_model (p : shape_predictor) (s : SequenceFaceLandmarksImpl) :=
  mkImpl (m_frames s) (m_frame_scale s) (m_model_path s) (m_detector s) p.

Definition set_faces (fs : list Face.t) (f : Frame.t) : Frame.t :=
  Frame.mk fs (Frame.width f) (Frame.height f).

(** [void setModel(const std::string& modelPath)] *)
Definition setModel (modelPath : string) : M SequenceFaceLandmarksImpl unit :=
  if decide (modelPath = "") then ret tt
  else
    modify (set_model_path modelPath) ;;
    modify (set_detector get_frontal_face_detector) ;;
    s <- get ;;
    let '(model, thrown) := deserialize modelPath (m_pose_model s) in
    modify (set_pose_model model) ;;
    match thrown with
    | Some what => throw (library_error what)
    | None => ret tt
    end.

(** The members before a constructor's body runs. *)
Definition members (frame_scale : float) : SequenceFaceLandmarksImpl :=
  mkImpl [] frame_scale "" default_detector default_predictor.

(** [SequenceFaceLandmarksImpl(const std::string& modelPath, float frame_scale)] *)
Definition create_with_model (modelPath : string) (frame_scale : float)
  : outcome unit * SequenceFaceLandmarksImpl :=
  setModel modelPath (members frame_scale).

(** [SequenceFaceLandmarksImpl(float frame_scale)] *)
Definition create (frame_scale : float) : SequenceFaceLandmarksImpl :=
  members frame_scale.

(** [(int)std::round(v / m_frame_scale)] *)
Definition unscale (scale : float) (v : Z) : Z :=
  f_to_int (f_round (f_div (f_of_Z v) scale)).

(** [dlib_obj_to_points]: the vector is resized to [num_parts()] and every
    element is assigned [(float)part.x()], [(float)part.y()], converted to
    the [int] fields of [cv::Point]. *)
Definition dlib_obj_to_points (obj : list dpoint.t) : list Point.t :=
  map (fun p => Point.mk (f_to_int (f_of_Z (dpoint.x p)))
                         (f_to_int (f_of_Z (dpoint.y p)))) obj.

(** One iteration's result for [frame_landmarks.faces[i]]: the landmarks
    from the predictor, rescaled in place, and the rescaled box. *)
Definition scaled_face (scale : float) (dlib_face : rectangle.t)
    (shape : list dpoint.t) : Face.t :=
  Face.mk
    (Rect.mk (unscale scale (rectangle.left dlib_face))
             (unscale scale (rectangle.top dlib_face))
             (unscale scale (rectangle.width dlib_face))
             (unscale scale (rectangle.height dlib_face)))
    (map (fun p => Point.mk (unscale scale (Point.x p)) (unscale scale (Point.y p)))
         (dlib_obj_to_points shape)).

(** [template<typename pixel_type> void extract_landmarks(frame, frame_landmarks)];
    the state is the frame behind the reference [frame_landmarks], the
    members it reads are arguments. *)
Definition extract_landmarks (scale : float) (detector : frontal_face_detector)
    (pose_model : shape_predictor) (pt : pixel_type) (frame : Mat pixels)
  : M Frame.t unit :=
  frame_scaled <- (if f_neqb scale f_one
                   then call (cv_resize frame scale scale)
                   else ret frame) ;;
  dlib_frame <- call (cv_image pt frame_scaled) ;;
  faces <- call (detect detector dlib_frame) ;;
  modify (fun fl => set_faces (vec_resize (length faces) Face.default (Frame.faces fl)) fl) ;;
  for_below (length faces) (fun i =>
    match faces !! i with
    | None => undefined
    | Some dlib_face =>
        shape <- call (predict pose_model dlib_frame dlib_face) ;;
        modify (fun fl =>
          set_faces (<[i := scaled_face scale dlib_face shape]> (Frame.faces fl)) fl)
    end).

(** Run a computation on [m_frames.back()] through the reference. *)
Definition on_back {A} (m : M Frame.t A) : M SequenceFaceLandmarksImpl A :=
  fun s =>
    match unsnoc (m_frames s) with
    | None => (Undefined, s)
    | Some (front, b) =>
        let '(r, b') := m b in (r, set_frames (front ++ [b']) s)
    end.

(** [const Frame& addFrame(const cv::Mat& frame)] *)
Definition addFrame (frame : Mat pixels) : M SequenceFaceLandmarksImpl Frame.t :=
  s <- get ;;
  if decide (m_model_path s = "")
  then throw (runtime_error "A landmarks model file is not set!")
  else
    modify (fun s => set_frames (m_frames s ++ [Frame.mk [] (cols frame) (rows frame)]) s) ;;
    (if channels frame =? 3
     then on_back (extract_landmarks (m_frame_scale s) (m_detector s) (m_pose_model s)
                     bgr_pixel frame)
     else on_back (extract_landmarks (m_frame_scale s) (m_detector s) (m_pose_model s)
                     unsigned_char frame)) ;;
    on_back get.

(** [const std::vector<Frame>& getSequence() const] *)
Definition getSequence (s : SequenceFaceLandmarksImpl) : list Frame.t := m_frames s.

(** [void clear()] *)
Definition clear : M SequenceFaceLandmarksImpl unit := modify (set_frames []).

(** [size_t size() const] *)
Definition size (s : SequenceFaceLandmarksImpl) : nat := length (m_frames s).

(** [const Frame& operator[](size_t i) const { return m_frames[i]; }]:
    [std::vector::operator[]] makes no range check. *)
Definition operator_index (i : nat) : M SequenceFaceLandmarksImpl Frame.t :=
  s <- get ;;
  match m_frames s !! i with
  | Some f => ret f
  | None => undefined
  end.

End Session.

(** ** [load] and [save] *)

Section Serializer.
Context `{V : Vision} `{P : Protobuf} `{FS : Paths}.

(** The body of [load]'s innermost loop: [cv::Point(io_point.x(), io_point.y())]. *)
Definition load_point (io_point : io.Point.t) : Point.t :=
  Point.mk (io.Point.x io_point) (io.Point.y io_point).

(** The body of [load]'s loop over [io_frame.faces()]. *)
Definition load_face (io_face : io.Face.t) : Face.t :=
  let io_bbox := io.Face.bbox io_face in
  Face.mk
    (Rect.mk (io.BoundingBox.left io_bbox) (io.BoundingBox.top io_bbox)
             (io.BoundingBox.width io_bbox) (io.BoundingBox.height io_bbox))
    (map load_point (io.Face.landmarks io_face)).

(** The body of [load]'s loop over [sequence.frames()]. *)
Definition load_frame (io_frame : io.Frame.t) : Frame.t :=
  Frame.mk (map load_face (io.Frame.faces io_frame))
           (io.Frame.width io_frame) (io.Frame.height io_frame).

(** [void load(const std::string& filePath)], built with [WITH_PROTOBUF].
    The result of [ParseFromIstream] is not looked at; every frame of the
    message is pushed onto [m_frames] in order. *)
Definition load (filePath : string) (fs : file_store)
  : M SequenceFaceLandmarksImpl unit :=
  clear ;;
  let '(sequence, _) := ParseFromIstream (ifstream filePath fs) in
  modify (fun s =>
    set_frames (m_frames s ++ map load_frame (io.Sequence.frames sequence)) s).

(** The body of [save]'s innermost loop: [add_landmarks], [set_x], [set_y]. *)
Definition save_point (point : Point.t) : io.Point.t :=
  io.Point.mk (Point.x point) (Point.y point).

(** The body of [save]'s loop over [frame.faces]: [add_faces],
    [mutable_bbox] (which marks the box present) and its four setters. *)
Definition save_face (face : Face.t) : io.Face.t :=
  io.Face.mk
    (Some (io.BoundingBox.mk (Rect.x (Face.bbox face)) (Rect.y (Face.bbox face))
                             (Rect.width (Face.bbox face)) (Rect.height (Face.bbox face))))
    (map save_point (Face.landmarks face)).

(** The body of [save]'s loop over [m_frames]: [add_frames], [set_width],
    [set_height]. *)
Definition save_frame (frame : Frame.t) : io.Frame.t :=
  io.Frame.mk (Frame.width frame) (Frame.height frame)
              (map save_face (Frame.faces frame)).

(** [void save(const std::string& filePath) const], built with
    [WITH_PROTOBUF]: the object is read only, the file is replaced
    ([std::fstream::trunc]).  Neither the stream nor the result of
    [SerializeToOstream] is tested: the call returns normally also when
    nothing could be written. *)
Definition save (filePath : string) (s : SequenceFaceLandmarksImpl)
    (fs : file_store) : outcome unit * file_store :=
  let sequence := io.Sequence.mk (map save_frame (m_frames s)) in
  (Ok tt, ofstream filePath (SerializeToOstream sequence) fs).

Definition NO_PROTOBUF_ERROR : string :=
  "Method is not implemented! Please enable protobuf to use.".

(** [load] and [save] of a build without [WITH_PROTOBUF]. *)
Definition load_no_protobuf (filePath : string) (fs : file_store)
  : M SequenceFaceLandmarksImpl unit :=
  throw (runtime_error NO_PROTOBUF_ERROR).

Definition save_no_protobuf (filePath : string) (s : SequenceFaceLandmarksImpl)
    (fs : file_store) : outcome unit * file_store :=
  (Throw (runtime_error NO_PROTOBUF_ERROR), fs).

End Serializer.

(** ** The renderer *)

(** [std::to_string(i)] *)
Definition to_string (i : nat) : string :=
  NilEmpty.string_of_uint (Nat.to_uint i).

Section Renderer.
(** [cv::Scalar] *)
Variable Scalar : Type.

(** A drawing call on the target image.  [PutText] is always made with
    [cv::FONT_HERSHEY_PLAIN] at scale 0.5. *)
Inductive draw : Type :=
| Line (p q : Point.t) (color : Scalar) (thickness : Z)
| Circle (center : Point.t) (radius : Z) (color : Scalar) (thickness : Z)
| PutText (text : string) (org : Point.t) (color : Scalar) (thickness : Z)
| Rectangle (r : Rect.t) (color : Scalar) (thickness : Z).

(** The target image [cv::Mat& img], as the drawing calls made on it so
    far, oldest first. *)
Definition canvas : Type := list draw.

Definition emit (d : draw) : M canvas unit := modify (fun img => img ++ [d]).

(** [landmarks[i]] on a [std::vector]: no range check. *)
Definition at_index (landmarks : list Point.t) (i : nat) : M canvas Point.t :=
  match landmarks !! i with
  | Some p => ret p
  | None => undefined
  end.

(** [cv::line(img, landmarks[i], landmarks[j], color, thickness)] *)
Definition line_between (landmarks : list Point.t) (i j : nat)
    (color : Scalar) (thickness : Z) : M canvas unit :=
  p <- at_index landmarks i ;;
  q <- at_index landmarks j ;;
  emit (Line p q color thickness).

(** [for (size_t i = lo; i <= hi; ++i) cv::line(img, landmarks[i], landmarks[i - 1], ...)] *)
Definition polyline (landmarks : list Point.t) (lo hi : nat)
    (color : Scalar) (thickness : Z) : M canvas unit :=
  for_range lo hi (fun i => line_between landmarks i (i - 1) color thickness).

(** [void render(cv::Mat& img, const std::vector<cv::Point>& landmarks,
    bool drawLabels, const cv::Scalar& color, int thickness)] *)
Definition render_landmarks (landmarks : list Point.t) (drawLabels : bool)
    (color : Scalar) (thickness : Z) : M canvas unit :=
  (if Nat.eqb (length landmarks) 68
   then
     polyline landmarks 1 16 color thickness ;;
     polyline landmarks 28 30 color thickness ;;
     polyline landmarks 18 21 color thickness ;;
     polyline landmarks 23 26 color thickness ;;
     polyline landmarks 31 35 color thickness ;;
     line_between landmarks 30 35 color thickness ;;
     polyline landmarks 37 41 color thickness ;;
     line_between landmarks 36 41 color thickness ;;
     polyline landmarks 43 47 color thickness ;;
     line_between landmarks 42 47 color thickness ;;
     polyline landmarks 49 59 color thickness ;;
     line_between landmarks 48 59 color thickness ;;
     polyline landmarks 61 67 color thickness ;;
     line_between landmarks 60 67 color thickness
   else
     for_below 68 (fun i =>
       p <- at_index landmarks i ;;
       emit (Circle p thickness color (-1)))) ;;
  if drawLabels
  then for_below (length landmarks) (fun i =>
         p <- at_index landmarks i ;;
         emit (PutText (to_string i) p color thickness))
  else ret tt.

(** [void render(cv::Mat& img, const cv::Rect& bbox, const cv::Scalar& color,
    int thickness)] *)
Definition render_bbox (bbox : Rect.t) (color : Scalar) (thickness : Z)
  : M canvas unit :=
  emit (Rectangle bbox color thickness).

(** [void render(cv::Mat& img, const Face& face, bool drawLabels, ...)] *)
Definition render_face (face : Face.t) (drawLabels : bool)
    (bbox_color landmarks_color : Scalar) (thickness : Z) : M canvas unit :=
  render_bbox (Face.bbox face) bbox_color thickness ;;
  render_landmarks (Face.landmarks face) drawLabels landmarks_color thickness.

(** [void render(cv::Mat& img, const Frame& frame, bool drawLabels, ...)] *)
Fixpoint render_faces (faces : list Face.t) (drawLabels : bool)
    (bbox_color landmarks_color : Scalar) (thickness : Z) : M canvas unit :=
  match faces with
  | [] => ret tt
  | face :: rest =>
      render_face face drawLabels bbox_color landmarks_color thickness ;;
      render_faces rest drawLabels bbox_color landmarks_color thickness
  end.

Definition render_frame (frame : Frame.t) (drawLabels : bool)
    (bbox_color landmarks_color : Scalar) (thickness : Z) : M canvas unit :=
  render_faces (Frame.faces frame) drawLabels bbox_color landmarks_color thickness.

End Renderer.

Arguments Line {Scalar} p q color thickness.
Arguments Circle {Scalar} center radius color thickness.
Arguments PutText {Scalar} text org color thickness.
Arguments Rectangle {Scalar} r color thickness.
Arguments render_landmarks {Scalar} landmarks drawLabels color thickness.
Arguments render_bbox {Scalar} bbox color thickness.
Arguments render_face {Scalar} face drawLabels bbox_color landmarks_color thickness.
Arguments render_frame {Scalar} frame drawLabels bbox_color landmarks_color thickness.
Arguments polyline {Scalar} landmarks lo hi color thickness.
Arguments line_between {Scalar} landmarks i j color thickness.
Arguments at_index {Scalar} landmarks i.
Arguments emit {Scalar} d.

(** ** A protobuf runtime: the wire encoding of [io::Sequence]

    An instance of [Protobuf] that follows the protocol-buffers encoding:
    base-128 varints, field keys [(number << 3) | wire_type], [int32] fields
    as sign-extended 64-bit varints that are left out when zero, embedded
    messages as length-delimited fields.  Field numbers follow the order of
    the schema.  The parser merges fields as it meets them, skips fields it
    does not know, and stops at the first malformed item, leaving in the
    message what it had merged so far.  Message sizes are not limited. *)
Module Wire.

Definition byte_of_N (n : N) : byte :=
  match Byte.of_N (n mod 256) with
  | Some b => b
  | None => Byte.x00
  end.

(** *** Varints *)

Fixpoint put_varint (fuel : nat) (n : N) : list byte :=
  match fuel with
  | O => []
  | S fuel' =>
      if (n <? 128)%N then [byte_of_N n]
      else byte_of_N (128 + n mod 128) :: put_varint fuel' (n / 128)
  end.

Definition varint (n : N) : list byte :=
  put_varint (S (N.to_nat (N.size n))) n.

Fixpoint get_varint (input : list byte) : option (N * list byte) :=
  match input with
  | [] => None
  | b :: rest =>
      let v := Byte.to_N b in
      if (v <? 128)%N then Some (v, rest)
      else match get_varint rest with
           | Some (hi, rest') => Some ((v - 128) + 128 * hi, rest')%N
           | None => None
           end
  end.

(** An [int32] on the wire is its 64-bit two's complement. *)
Definition uint64_of_int32 (v : Z) : N := Z.to_N (v mod 2 ^ 64).

Definition int32_of_uint64 (n : N) : Z :=
  let w := Z.of_N n mod 2 ^ 32 in
  if w <? 2 ^ 31 then w else w - 2 ^ 32.

(** *** Fields *)

Inductive value : Type :=
| Varint (n : N)
| Fixed64 (bits : list byte)
| Bytes (payload : list byte)
| Fixed32 (bits : list byte).

Definition key (number wire_type : N) : N := (number * 8 + wire_type)%N.

Definition take_exactly (n : nat) (input : list byte) : option (list byte * list byte) :=
  if (n <=? length input)%nat then Some (firstn n input, skipn n input) else None.

Definition read_field (input : list byte) : option (N * value * list byte) :=
  match get_varint input with
  | None => None
  | Some (k, rest) =>
      let number := (k / 8)%N in
      if (number =? 0)%N then None
      else
        match (k mod 8)%N with
        | 0%N => match get_varint rest with
                 | Some (n, rest') => Some (number, Varint n, rest')
                 | None => None
                 end
        | 1%N => match take_exactly 8 rest with
                 | Some (bits, rest') => Some (number, Fixed64 bits, rest')
                 | None => None
                 end
        | 2%N => match get_varint rest with
                 | Some (len, rest') =>
                     match take_exactly (N.to_nat len) rest' with
                     | Some (payload, rest'') => Some (number, Bytes payload, rest'')
                     | None => None
                     end
                 | None => None
                 end
        | 5%N => match take_exactly 4 rest with
                 | Some (bits, rest') => Some (number, Fixed32 bits, rest')
                 | None => None
                 end
        | _ => None
        end
  end.

(** The fields read before the end of the input or the first malformed
    item, and whether the end was reached. *)
Fixpoint read_fields (fuel : nat) (input : list byte) : list (N * value) * bool :=
  match input with
  | [] => ([], true)
  | _ :: _ =>
      match fuel with
      | O => ([], false)
      | S fuel' =>
          match read_field input with
          | None => ([], false)
          | Some (number, v, rest) =>
              let '(fs, ok) := read_fields fuel' rest in ((number, v) :: fs, ok)
          end
      end
  end.

Definition fields (input : list byte) : list (N * value) * bool :=
  read_fields (length input) input.

Definition put_int32 (number : N) (v : Z) : list byte :=
  if v =? 0 then []
  else varint (key number 0) ++ varint (uint64_of_int32 v).

(** The field an [int32] contributes: none when it is zero. *)
Definition int32_field (number : N) (v : Z) : list (N * value) :=
  if v =? 0 then [] else [(number, Varint (uint64_of_int32 v))].

Definition put_message (number : N) (payload : list byte) : list byte :=
  varint (key number 2) ++ varint (N.of_nat (length payload)) ++ payload.

(** *** Writers *)

Definition write_point (p : io.Point.t) : list byte :=
  put_int32 1 (io.Point.x p) ++ put_int32 2 (io.Point.y p).

Definition write_bbox (b : io.BoundingBox.t) : list byte :=
  put_int32 1 (io.BoundingBox.left b) ++ put_int32 2 (io.BoundingBox.top b) ++
  put_int32 3 (io.BoundingBox.width b) ++ put_int32 4 (io.BoundingBox.height b).

Definition write_face (f : io.Face.t) : list byte :=
  match io.Face.has_bbox f with
  | Some b => put_message 1 (write_bbox b)
  | None => []
  end ++
  concat (map (fun p => put_message 2 (write_point p)) (io.Face.landmarks f)).

Definition write_frame (f : io.Frame.t) : list byte :=
  put_int32 1 (io.Frame.width f) ++ put_int32 2 (io.Frame.height f) ++
  concat (map (fun face => put_message 3 (write_face face)) (io.Frame.faces f)).

Definition write_sequence (s : io.Sequence.t) : list byte :=
  concat (map (fun f => put_message 1 (write_frame f)) (io.Sequence.frames s)).

(** *** Readers *)

Definition merge_point (p : io.Point.t) (f : N * value) : io.Point.t :=
  match f with
  | (1%N, Varint n) => io.Point.mk (int32_of_uint64 n) (io.Point.y p)
  | (2%N, Varint n) => io.Point.mk (io.Point.x p) (int32_of_uint64 n)
  | _ => p
  end.

Definition read_point (p : io.Point.t) (input : list byte) : io.Point.t * bool :=
  let '(fs, ok) := fields input in (fold_left merge_point fs p, ok).

Definition merge_bbox (b : io.BoundingBox.t) (f : N * value) : io.BoundingBox.t :=
  match f with
  | (1%N, Varint n) =>
      io.BoundingBox.mk (int32_of_uint64 n) (io.BoundingBox.top b)
                        (io.BoundingBox.width b) (io.BoundingBox.height b)
  | (2%N, Varint n) =>
      io.BoundingBox.mk (io.BoundingBox.left b) (int32_of_uint64 n)
                        (io.BoundingBox.width b) (io.BoundingBox.height b)
  | (3%N, Varint n) =>
      io.BoundingBox.mk (io.BoundingBox.left b) (io.BoundingBox.top b)
                        (int32_of_uint64 n) (io.BoundingBox.height b)
  | (4%N, Varint n) =>
      io.BoundingBox.mk (io.BoundingBox.left b) (io.BoundingBox.top b)
                        (io.BoundingBox.width b) (int32_of_uint64 n)
  | _ => b
  end.

Definition read_bbox (b : io.BoundingBox.t) (input : list byte)
  : io.BoundingBox.t * bool :=
  let '(fs, ok) := fields input in (fold_left merge_bbox fs b, ok).

Fixpoint merge_face (m : io.Face.t) (fs : list (N * value)) : io.Face.t * bool :=
  match fs with
  | [] => (m, true)
  | (1%N, Bytes payload) :: rest =>
      let '(b, ok) := read_bbox (io.Face.bbox m) payload in
      let m' := io.Face.mk (Some b) (io.Face.landmarks m) in
      if ok then merge_face m' rest else (m', false)
  | (2%N, Bytes payload) :: rest =>
      let '(p, ok) := read_point (io.Point.mk 0 0) payload in
      let m' := io.Face.mk (io.Face.has_bbox m) (io.Face.landmarks m ++ [p]) in
      if ok then merge_face m' rest else (m', false)
  | _ :: rest => merge_face m rest
  end.

Definition read_face (input : list byte) : io.Face.t * bool :=
  let '(fs, ok) := fields input in
  let '(m, ok') := merge_face (io.Face.mk None []) fs in
  (m, ok' && ok).

Fixpoint merge_frame (m : io.Frame.t) (fs : list (N * value)) : io.Frame.t * bool :=
  match fs with
  | [] => (m, true)
  | (1%N, Varint n) :: rest =>
      merge_frame (io.Frame.mk (int32_of_uint64 n) (io.Frame.height m) (io.Frame.faces m)) rest
  | (2%N, Varint n) :: rest =>
      merge_frame (io.Frame.mk (io.Frame.width m) (int32_of_uint64 n) (io.Frame.faces m)) rest
  | (3%N, Bytes payload) :: rest =>
      let '(face, ok) := read_face payload in
      let m' := io.Frame.mk (io.Frame.width m) (io.Frame.height m)
                            (io.Frame.faces m ++ [face]) in
      if ok then merge_frame m' rest else (m', false)
  | _ :: rest => merge_frame m rest
  end.

Definition read_frame (input : list byte) : io.Frame.t * bool :=
  let '(fs, ok) := fields input in
  let '(m, ok') := merge_frame (io.Frame.mk 0 0 []) fs in
  (m, ok' && ok).

Fixpoint merge_sequence (m : io.Sequence.t) (fs : list (N * value))
  : io.Sequence.t * bool :=
  match fs with
  | [] => (m, true)
  | (1%N, Bytes payload) :: rest =>
      let '(frame, ok) := read_frame payload in
      let m' := io.Sequence.mk (io.Sequence.frames m ++ [frame]) in
      if ok then merge_sequence m' rest else (m', false)
  | _ :: rest => merge_sequence m rest
  end.

Definition read_sequence (input : list byte) : io.Sequence.t * bool :=
  let '(fs, ok) := fields input in
  let '(m, ok') := merge_sequence io.Sequence.empty fs in
  (m, ok' && ok).

(** [ParseFromIstream]: the message is cleared first; a stream that could
    not be opened delivers no byte and is not at end-of-file. *)
Definition parse (input : option (list byte)) : io.Sequence.t * bool :=
  match input with
  | None => (io.Sequence.empty, false)
  | Some bytes => read_sequence bytes
  end.

Definition runtime : Protobuf :=
  {| SerializeToOstream := write_sequence; ParseFromIstream := parse |}.

End Wire.

(** ** Test doubles for the collaborators

    Deterministic stand-ins, used to run the session on concrete inputs:
    arithmetic in exact rationals for [float], an image wrapper that checks
    the channel count as [dlib::cv_image] does, a detector that reports one
    box per image, a predictor whose model is the list of offsets it places
    inside the box, and a small file system. *)
Module Stub.

(** [std::round]: halfway cases away from zero. *)
Definition q_round (q : Q) : Q :=
  if Qle_bool 0 q
  then inject_Z (Qfloor (Qplus q (1 # 2)))
  else inject_Z (- Qfloor (Qplus (Qopp q) (1 # 2))).

(** The cast to [int]: truncation towards zero. *)
Definition q_trunc (q : Q) : Z :=
  if Qle_bool 0 q then Qfloor q else Qceiling q.

Definition rational : FloatOps :=
  {| float := Q;
     f_one := inject_Z 1;
     f_neqb := fun a b => negb (Qeq_bool a b);
     f_of_Z := inject_Z;
     f_div := Qdiv;
     f_round := q_round;
     f_to_int := q_trunc |}.

(** The offsets a model file holds: [n] points on the diagonal. *)
Definition diagonal (n : nat) : list dpoint.t :=
  map (fun i => dpoint.mk (Z.of_nat i) (Z.of_nat i)) (seq 0 n).

(** Reading a model file: two files exist, any other path cannot be opened. *)
Definition stub_deserialize (path : string) (model : list dpoint.t)
  : list dpoint.t * option string :=
  if decide (path = "shape_predictor_68_face_landmarks.dat") then (diagonal 68, None)
  else if decide (path = "shape_predictor_5_face_landmarks.dat") then (diagonal 5, None)
  else (model, Some "Unable to open file for reading.").

Definition stub_resize (img : Mat unit) (fx fy : Q) : lib_result (Mat unit) :=
  LibOk (mkMat (q_trunc (q_round (Qmult (inject_Z (cols img)) fx)))
               (q_trunc (q_round (Qmult (inject_Z (rows img)) fy)))
               (channels img) tt).

(** [dlib::cv_image<pixel_type>]: the constructor asserts that the image has
    the channels of the pixel type (the images here are all 8-bit). *)
Definition stub_cv_image (pt : pixel_type) (img : Mat unit) : lib_result (Mat unit) :=
  if channels img =? pixel_channels pt then LibOk img
  else LibThrow "The pixel type you gave doesn't match pixel used by the open cv Mat object.".

(** One face, in the middle of the image. *)
Definition stub_detect (detector : unit) (img : Mat unit) : lib_result (list rectangle.t) :=
  LibOk [rectangle.mk (cols img / 4) (rows img / 4) (cols img / 2) (rows img / 2)].

Definition stub_predict (model : list dpoint.t) (img : Mat unit) (box : rectangle.t)
  : lib_result (list dpoint.t) :=
  LibOk (map (fun o => dpoint.mk (rectangle.left box + dpoint.x o)
                                 (rectangle.top box + dpoint.y o)) model).

Definition vision : @Vision rational :=
  @Build_Vision rational
    unit                      (* pixels *)
    (Mat unit)                (* dlib_image *)
    unit                      (* frontal_face_detector *)
    (list dpoint.t)           (* shape_predictor *)
    tt                        (* default_detector *)
    []                        (* default_predictor *)
    stub_resize
    stub_cv_image
    tt                        (* get_frontal_face_detector *)
    stub_deserialize
    stub_detect
    stub_predict.

(** Paths of the test file system: a leading [./] is dropped; the empty
    path and the paths into the directory [missing/] cannot be opened. *)
Definition stub_file_of (path : string) : option string :=
  let name := if String.prefix "./" path
              then String.substring 2 (String.length path - 2) path
              else path in
  if decide (name = "") then None
  else if String.prefix "missing/" name then None
  else Some name.

Definition paths : Paths := {| file_of := stub_file_of |}.

(** The session type over the test doubles. *)
Definition session : Type := @SequenceFaceLandmarksImpl rational vision.

(** A session bound to the 68-point model, processing at half resolution. *)
Definition bound_session : session :=
  snd (@create_with_model rational vision
         "shape_predictor_68_face_landmarks.dat" (1 # 2)).

(** A session created without a model. *)
Definition unbound_session : session := @create rational vision (1 # 2).

Definition image (width height nchannels : Z) : Mat unit :=
  mkMat width height nchannels tt.

(** A sequence of two frames, the first with two faces. *)
Definition sample_frames : list Frame.t :=
  [ Frame.mk [ Face.mk (Rect.mk 10 (-20) 0 300)
                       [Point.mk 1 2; Point.mk 0 0; Point.mk (-2147483648) 2147483647];
               Face.mk Rect.zero [] ] 640 480;
    Frame.mk [] 0 0 ].

Definition sample_session : session :=
  @set_frames rational vision sample_frames bound_session.

(** A synthetic landmark list: point [i] is [(i, 2 i)]. *)
Definition synthetic (n : nat) : list Point.t :=
  map (fun i => Point.mk (Z.of_nat i) (2 * Z.of_nat i)) (seq 0 n).

End Stub.

(** ** The contour table of the 68-point scheme *)

(** The segments of the 68-point branch of [render], as pairs of 0-based
    landmark indices, in drawing order. *)
Definition contour_segments : list (nat * nat) :=
  [ (* jaw line *)
    (1, 0); (2, 1); (3, 2); (4, 3); (5, 4); (6, 5); (7, 6); (8, 7);
    (9, 8); (10, 9); (11, 10); (12, 11); (13, 12); (14, 13); (15, 14); (16, 15);
    (* nose bridge *)
    (28, 27); (29, 28); (30, 29);
    (* right eyebrow *)
    (18, 17); (19, 18); (20, 19); (21, 20);
    (* left eyebrow *)
    (23, 22); (24, 23); (25, 24); (26, 25);
    (* lower nose and its closing segment *)
    (31, 30); (32, 31); (33, 32); (34, 33); (35, 34); (30, 35);
    (* right eye and its closing segment *)
    (37, 36); (38, 37); (39, 38); (40, 39); (41, 40); (36, 41);
    (* left eye and its closing segment *)
    (43, 42); (44, 43); (45, 44); (46, 45); (47, 46); (42, 47);
    (* outer mouth and its closing segment *)
    (49, 48); (50, 49); (51, 50); (52, 51); (53, 52); (54, 53);
    (55, 54); (56, 55); (57, 56); (58, 57); (59, 58); (48, 59);
    (* inner mouth and its closing segment *)
    (61, 60); (62, 61); (63, 62); (64, 63); (65, 64); (66, 65); (67, 66); (60, 67)
  ]%nat.

(** A facial feature of the 68-point scheme, by the range of landmark
    indices it spans. *)
Inductive feature : Type :=
| jaw | right_eyebrow | left_eyebrow | nose_bridge | lower_nose
| right_eye | left_eye | outer_mouth | inner_mouth.

Definition all_features : list feature :=
  [jaw; right_eyebrow; left_eyebrow; nose_bridge; lower_nose;
   right_eye; left_eye; outer_mouth; inner_mouth].

Definition feature_range (f : feature) : nat * nat :=
  match f with
  | jaw => (0, 16)
  | right_eyebrow => (17, 21)
  | left_eyebrow => (22, 26)
  | nose_bridge => (27, 30)
  | lower_nose => (30, 35)
  | right_eye => (36, 41)
  | left_eye => (42, 47)
  | outer_mouth => (48, 59)
  | inner_mouth => (60, 67)
  end%nat.

(** The points of a feature in a landmark list. *)
Definition feature_points (f : feature) (landmarks : list Point.t) : list Point.t :=
  let '(lo, hi) := feature_range f in
  firstn (S hi - lo) (skipn lo landmarks).

Definition point_eqb (p q : Point.t) : bool :=
  (Point.x p =? Point.x q) && (Point.y p =? Point.y q).

Definition is_point_of (pts : list Point.t) (p : Point.t) : bool :=
  existsb (point_eqb p) pts.

(** The number of line segments on a canvas that join two points of a
    feature. *)
Definition segments_drawn {Scalar} (f : feature) (landmarks : list Point.t)
    (img : list (draw Scalar)) : nat :=
  let pts := feature_points f landmarks in
  length (List.filter (fun d =>
                    match d with
                    | Line p q _ _ => is_point_of pts p && is_point_of pts q
                    | _ => false
                    end) img).

(** The number of line segments on a canvas. *)
Definition lines_drawn {Scalar} (img : list (draw Scalar)) : nat :=
  length (List.filter (fun d => match d with Line _ _ _ _ => true | _ => false end) img).

(** The segment counts as the specification lists them. *)
Definition specified_segments (f : feature) : nat :=
  match f with
  | jaw => 15
  | right_eyebrow | left_eyebrow => 3
  | nose_bridge => 2
  | lower_nose | right_eye | left_eye => 5
  | outer_mouth => 11
  | inner_mouth => 7
  end%nat.

(** The segment counts of the source's loops. *)
Definition drawn_segments (f : feature) : nat :=
  match f with
  | jaw => 16
  | right_eyebrow | left_eyebrow => 4
  | nose_bridge => 3
  | lower_nose | right_eye | left_eye => 6
  | outer_mouth => 12
  | inner_mouth => 8
  end%nat.

(** The segments of the table that lie within a feature's index range. *)
Definition table_segments (f : feature) : list (nat * nat) :=
  let '(lo, hi) := feature_range f in
  List.filter (fun s => (lo <=? fst s)%nat && (fst s <=? hi)%nat &&
                   (lo <=? snd s)%nat && (snd s <=? hi)%nat) contour_segments.

(** ** Notions used in the statements *)

(** The exception [addFrame] throws when no model path is stored. *)
Definition model_not_set : exn :=
  runtime_error "A landmarks model file is not set!".

(** An outcome that is not a [std::runtime_error]: the only exceptions left
    are those of the libraries. *)
Definition no_runtime_error {A} (r : outcome A) : Prop :=
  match r with
  | Throw (runtime_error _) => False
  | _ => True
  end.


(** The landmark at an index that is in range. *)
Definition landmark (landmarks : list Point.t) (i : nat) : Point.t :=
  nth i landmarks (Point.mk 0 0).

(** The drawing call for a segment of the table. *)
Definition contour_line {Scalar} (landmarks : list Point.t) (color : Scalar)
    (thickness : Z) (seg : nat * nat) : draw Scalar :=
  Line (landmark landmarks (fst seg)) (landmark landmarks (snd seg)) color thickness.

(** The filled marker of the fallback branch. *)
Definition marker {Scalar} (color : Scalar) (thickness : Z) (p : Point.t) : draw Scalar :=
  Circle p thickness color (-1).

(** The label of a landmark. *)
Definition label {Scalar} (landmarks : list Point.t) (color : Scalar)
    (thickness : Z) (i : nat) : draw Scalar :=
  PutText (to_string i) (landmark landmarks i) color thickness.

(** A drawing routine that completes and adds exactly the calls [out] to
    whatever image it is given. *)
Definition draws {Scalar} (m : M (canvas Scalar) unit) (out : list (draw Scalar)) : Prop :=
  forall img, m img = (Ok tt, img ++ out).

(** ** Notions used in the further statements *)

(** A method that leaves a component of the state as it was, whatever its
    outcome. *)
Definition keeps {St A B} (proj : St -> B) (m : M St A) : Prop :=
  forall s, proj (snd (m s)) = proj s.

(** An outcome other than undefined behaviour. *)
Definition is_defined {A} (r : outcome A) : Prop :=
  match r with
  | Undefined => False
  | _ => True
  end.

(** The drawing calls of the landmark [render] on a list it can complete:
    the contour table for 68 points, markers at the first 68 points
    otherwise, then one label per landmark when asked for. *)
Definition landmarks_drawing {Scalar} (landmarks : list Point.t) (drawLabels : bool)
    (color : Scalar) (thickness : Z) : list (draw Scalar) :=
  (if Nat.eqb (length landmarks) 68
   then map (contour_line landmarks color thickness) contour_segments
   else map (marker color thickness) (firstn 68 landmarks))
  ++ (if drawLabels
      then map (label landmarks color thickness) (seq 0 (length landmarks))
      else []).

(** The drawing calls of the face [render]: the box, then the landmarks. *)
Definition face_drawing {Scalar} (face : Face.t) (drawLabels : bool)
    (bbox_color landmarks_color : Scalar) (thickness : Z) : list (draw Scalar) :=
  Rectangle (Face.bbox face) bbox_color thickness
  :: landmarks_drawing (Face.landmarks face) drawLabels landmarks_color thickness.

(** A face the landmark [render] can complete on. *)
Definition renderable (face : Face.t) : Prop :=
  (68 <= length (Face.landmarks face))%nat.

(** Collaborators that fail: the detector rejects images narrower than 100
    columns and reports three boxes otherwise; the predictor fails on boxes
    that start at column 100 or beyond. *)
Module Faulty.

Definition faulty_detect (detector : unit) (img : Mat unit)
  : lib_result (list rectangle.t) :=
  if cols img <? 100 then LibThrow "image too small"
  else LibOk [rectangle.mk 10 10 50 50; rectangle.mk 200 10 50 50;
              rectangle.mk 300 10 50 50].

Definition faulty_predict (model : list dpoint.t) (img : Mat unit) (box : rectangle.t)
  : lib_result (list dpoint.t) :=
  if rectangle.left box <? 100 then Stub.stub_predict model img box
  else LibThrow "shape prediction failed".

Definition vision : @Vision Stub.rational :=
  @Build_Vision Stub.rational
    unit (Mat unit) unit (list dpoint.t) tt []
    Stub.stub_resize
    Stub.stub_cv_image
    tt
    Stub.stub_deserialize
    faulty_detect
    faulty_predict.

(** A session over the failing collaborators, bound to the 5-point model. *)
Definition bound_session : @SequenceFaceLandmarksImpl Stub.rational vision :=
  snd (@create_with_model Stub.rational vision
         "shape_predictor_5_face_landmarks.dat" (1 # 2)).

End Faulty.

(** Further sessions and faces over the test doubles of [Stub]. *)
Module Fixtures.

(** A session bound to the 68-point model that processes at full resolution. *)
Definition full_scale_session : Stub.session :=
  snd (@create_with_model Stub.rational Stub.vision
         "shape_predictor_68_face_landmarks.dat" (inject_Z 1)).

(** A detector that finds nothing. *)
Definition blind_vision : @Vision Stub.rational :=
  @Build_Vision Stub.rational
    unit (Mat unit) unit (list dpoint.t) tt []
    Stub.stub_resize
    Stub.stub_cv_image
    tt
    Stub.stub_deserialize
    (fun _ _ => LibOk [])
    Stub.stub_predict.

Definition blind_session : @SequenceFaceLandmarksImpl Stub.rational blind_vision :=
  snd (@create_with_model Stub.rational blind_vision
         "shape_predictor_68_face_landmarks.dat" (1 # 2)).

Definition face68 : Face.t := Face.mk (Rect.mk 1 2 30 40) (Stub.synthetic 68).
Definition face70 : Face.t := Face.mk (Rect.mk 5 6 70 80) (Stub.synthetic 70).
Definition face5 : Face.t := Face.mk (Rect.mk 9 9 10 10) (Stub.synthetic 5).

End Fixtures.

(** ** The arithmetic of [float]: IEEE 754 binary32 *)

(** [float] is the binary32 format: 24 bits of precision, exponents up to
    128, every operation rounded to the nearest float with halfway cases to
    the even mantissa.  A finite float [S754_finite s m e] stands for
    [(-1)^s * m * 2^e]. *)
Module Binary32.

Definition prec : Z := 24.
Definition emax : Z := 128.

(** The conversion of an [int] or a [long] to [float]. *)
Definition of_Z (v : Z) : spec_float := binary_normalize prec emax v 0 false.

(** The literal [1.0f]. *)
Definition one : spec_float := SFone prec emax.

(** [/] on two [float]s. *)
Definition div : spec_float -> spec_float -> spec_float := SFdiv prec emax.

(** [!=] on two [float]s. *)
Definition neqb (a b : spec_float) : bool := negb (SFeqb a b).

(** [std::round]: the nearest integral float, halfway cases away from zero.
    A float with a negative exponent [-k] has [k] fractional bits, which
    are rounded off the magnitude; zeros, infinities, NaN and the floats
    without fractional bits are returned as they are. *)
Definition round (f : spec_float) : spec_float :=
  match f with
  | S754_finite s m (Zneg k) =>
      binary_normalize prec emax
        (cond_Zopp s ((Zpos m + 2 ^ (Zpos k - 1)) / 2 ^ Zpos k)) 0 s
  | _ => f
  end.

(** The cast [(int)]: the fractional part is discarded.  C++ defines the
    cast when that integer fits an [int] ([int32_range]); the function
    gives the same integer beyond, and 0 for infinities and NaN. *)
Definition to_int (f : spec_float) : Z :=
  match f with
  | S754_finite s m e =>
      cond_Zopp s (if 0 <=? e then Zpos m * 2 ^ e else Zpos m / 2 ^ (- e))
  | _ => 0
  end.

Definition ops : FloatOps :=
  {| float := spec_float;
     f_one := one;
     f_neqb := neqb;
     f_of_Z := of_Z;
     f_div := div;
     f_round := round;
     f_to_int := to_int |}.





(** [cv::resize] of the test double, over binary32. *)
Definition stub_resize (img : Mat unit) (fx fy : spec_float) : lib_result (Mat unit) :=
  LibOk (mkMat (to_int (round (SFmul prec emax (of_Z (cols img)) fx)))
               (to_int (round (SFmul prec emax (of_Z (rows img)) fy)))
               (channels img) tt).

(** The test doubles of [Stub], over binary32. *)
Definition vision : @Vision ops :=
  @Build_Vision ops
    unit (Mat unit) unit (list dpoint.t) tt []
    stub_resize
    Stub.stub_cv_image
    tt
    Stub.stub_deserialize
    Stub.stub_detect
    Stub.stub_predict.


End Binary32.






(** * Properties *)

(** ** The method monad *)

Lemma bind_ok {St A B} (m : M St A) (k : A -> M St B) s a s' :
  m s = (Ok a, s') -> bind m k s = k a s'.
Proof. intros E. unfold bind. now rewrite E. Qed.

Lemma bind_throw {St A B} (m : M St A) (k : A -> M St B) s e s' :
  m s = (Throw e, s') -> bind m k s = (Throw e, s').
Proof. intros E. unfold bind. now rewrite E. Qed.

Lemma bind_undefined {St A B} (m : M St A) (k : A -> M St B) s s' :
  m s = (Undefined, s') -> bind m k s = (Undefined, s').
Proof. intros E. unfold bind. now rewrite E. Qed.

Lemma unsnoc_snoc {A} (front : list A) (b : A) :
  unsnoc (front ++ [b]) = Some (front, b).
Proof.
  unfold unsnoc. rewrite rev_app_distr. simpl. now rewrite rev_involutive.
Qed.

Lemma no_runtime_error_bind {St A B} (m : M St A) (k : A -> M St B) s :
  no_runtime_error (fst (m s)) ->
  (forall a s', no_runtime_error (fst (k a s'))) ->
  no_runtime_error (fst (bind m k s)).
Proof.
  intros Hm Hk. unfold bind. destruct (m s) as [[a|e|] s1]; simpl in *; auto.
Qed.

Lemma no_runtime_error_call {St A} (r : lib_result A) (s : St) :
  no_runtime_error (fst (call r s)).
Proof. destruct r; exact I. Qed.

Lemma no_runtime_error_for_each {St} (idx : list nat) (body : nat -> M St unit) :
  (forall i s, no_runtime_error (fst (body i s))) ->
  forall s, no_runtime_error (fst (for_each idx body s)).
Proof.
  intros Hb. induction idx as [|i idx IH]; intros s; simpl.
  - exact I.
  - apply no_runtime_error_bind; auto.
Qed.

(** ** The session object *)

Section SessionProperties.
Context `{V : Vision}.

Implicit Types (s : SequenceFaceLandmarksImpl) (frame : Mat pixels).

(** *** [extract_landmarks] *)

Lemma extract_no_runtime_error scale detector pose_model pt frame fl :
  no_runtime_error
    (fst (extract_landmarks scale detector pose_model pt frame fl)).
Proof.
  unfold extract_landmarks.
  apply no_runtime_error_bind.
  { destruct (f_neqb scale f_one); [apply no_runtime_error_call | exact I]. }
  intros frame_scaled fl1. apply no_runtime_error_bind; [apply no_runtime_error_call|].
  intros dlib_frame fl2. apply no_runtime_error_bind; [apply no_runtime_error_call|].
  intros faces fl3. apply no_runtime_error_bind; [exact I|].
  intros _ fl4. apply no_runtime_error_for_each.
  intros i fl5. destruct (faces !! i); [|exact I].
  apply no_runtime_error_bind; [apply no_runtime_error_call|].
  intros; exact I.
Qed.

Lemma on_back_no_runtime_error {A} (m : M Frame.t A) s :
  (forall fl, no_runtime_error (fst (m fl))) ->
  no_runtime_error (fst (on_back m s)).
Proof.
  intros Hm. unfold on_back. destruct (unsnoc (m_frames s)) as [[front b]|]; [|exact I].
  specialize (Hm b). destruct (m b) as [r b']. exact Hm.
Qed.

(** With a model path stored, [addFrame] never reports a missing model. *)
Lemma addFrame_bound_no_runtime_error s frame :
  m_model_path s <> "" ->
  no_runtime_error (fst (addFrame frame s)).
Proof.
  intros Hp. unfold addFrame.
  rewrite (bind_ok get _ s s s) by reflexivity.
  destruct (decide (m_model_path s = "")) as [E|_]; [contradiction|].
  apply no_runtime_error_bind; [exact I|].
  intros _ s1. apply no_runtime_error_bind.
  - destruct (channels frame =? 3);
      apply on_back_no_runtime_error; intros; apply extract_no_runtime_error.
  - intros _ s2. apply on_back_no_runtime_error. intros; exact I.
Qed.

(** The loop of [extract_landmarks] over the faces still to do. *)
Lemma extract_loop scale pose_model dlib_frame w h :
  forall (todo : list rectangle.t) (shapes : list (list dpoint.t))
         (seen : list rectangle.t) (filled rest : list Face.t),
    length filled = length seen ->
    length rest = length todo ->
    Forall2 (fun r sh => predict pose_model dlib_frame r = LibOk sh) todo shapes ->
    for_each (seq (length seen) (length todo))
      (fun i =>
         match (seen ++ todo) !! i with
         | None => undefined
         | Some dlib_face =>
             shape <- call (predict pose_model dlib_frame dlib_face) ;;
             modify (fun fl =>
               set_faces (<[i := scaled_face scale dlib_face shape]> (Frame.faces fl)) fl)
         end)
      (Frame.mk (filled ++ rest) w h)
    = (Ok tt, Frame.mk (filled ++ zip_with (scaled_face scale) todo shapes) w h).
Proof.
  induction todo as [|r todo IH]; intros shapes seen filled rest Hf Hr Hp.
  - inversion Hp; subst. destruct rest; [|discriminate]. reflexivity.
  - inversion Hp as [|r' sh todo' shapes' Hsh Hrest]; subst.
    destruct rest as [|old rest]; [discriminate|].
    simpl length. simpl seq. simpl for_each.
    erewrite bind_ok; cycle 1.
    { rewrite lookup_app_r by lia. rewrite Nat.sub_diag.
      change ((r :: todo) !! 0%nat) with (Some r). cbv beta iota.
      rewrite Hsh. reflexivity. }
    unfold set_faces. simpl Frame.faces. simpl Frame.width. simpl Frame.height.
    rewrite <- Hf.
    rewrite insert_app_r_alt by lia. rewrite Nat.sub_diag. simpl.
    specialize (IH shapes' (seen ++ [r]) (filled ++ [scaled_face scale r sh]) rest).
    rewrite !length_app in IH. simpl in IH.
    rewrite <- Hf in IH. rewrite Nat.add_1_r in IH.
    rewrite <- !app_assoc in IH. simpl in IH.
    apply IH; [reflexivity|simpl in Hr; lia|assumption].
Qed.

(** [extract_landmarks] when every collaborator returns: the frame's faces
    become the detector's boxes and the predictor's points, each passed
    through [unscale], in the detector's order. *)
Lemma extract_landmarks_ok scale detector pose_model pt frame fl
      frame_scaled dlib_frame rects shapes :
  (if f_neqb scale f_one then cv_resize frame scale scale else LibOk frame)
    = LibOk frame_scaled ->
  cv_image pt frame_scaled = LibOk dlib_frame ->
  detect detector dlib_frame = LibOk rects ->
  Forall2 (fun r sh => predict pose_model dlib_frame r = LibOk sh) rects shapes ->
  extract_landmarks scale detector pose_model pt frame fl
  = (Ok tt, set_faces (zip_with (scaled_face scale) rects shapes) fl).
Proof.
  intros Hres Himg Hdet Hpred. unfold extract_landmarks.
  rewrite (bind_ok _ _ fl frame_scaled fl).
  2:{ destruct (f_neqb scale f_one); [rewrite Hres|injection Hres as ->]; reflexivity. }
  rewrite Himg. rewrite (bind_ok _ _ fl dlib_frame fl) by reflexivity.
  rewrite Hdet. rewrite (bind_ok _ _ fl rects fl) by reflexivity.
  unfold bind at 1. unfold modify at 1.
  destruct fl as [faces0 w h]. unfold set_faces at 1 3. simpl Frame.faces.
  simpl Frame.width. simpl Frame.height. unfold for_below.
  pose proof (extract_loop scale pose_model dlib_frame w h rects shapes [] []
                (vec_resize (length rects) Face.default faces0)) as L.
  simpl in L. apply L; [reflexivity| |assumption].
  unfold vec_resize. rewrite length_app, length_firstn, repeat_length. lia.
Qed.

(** [extract_landmarks] when the image wrapper raises: the exception
    propagates and the frame behind the reference is as it was. *)
Lemma extract_landmarks_wrapper_throws scale detector pose_model pt frame fl
      frame_scaled what :
  (if f_neqb scale f_one then cv_resize frame scale scale else LibOk frame)
    = LibOk frame_scaled ->
  cv_image pt frame_scaled = LibThrow what ->
  extract_landmarks scale detector pose_model pt frame fl
  = (Throw (library_error what), fl).
Proof.
  intros Hres Himg. unfold extract_landmarks.
  rewrite (bind_ok _ _ fl frame_scaled fl).
  2:{ destruct (f_neqb scale f_one); [rewrite Hres|injection Hres as ->]; reflexivity. }
  rewrite Himg. reflexivity.
Qed.

(** *** [addFrame] *)

Lemma addFrame_unbound_throws s frame :
  m_model_path s = "" -> addFrame frame s = (Throw model_not_set, s).
Proof.
  intros Hp. unfold addFrame.
  rewrite (bind_ok get _ s s s) by reflexivity.
  destruct (decide (m_model_path s = "")); [reflexivity|contradiction].
Qed.

(** [addFrame] on a bound session when every collaborator returns, for the
    pixel type the channel count selects. *)
Lemma addFrame_ok s frame frame_scaled dlib_frame rects shapes :
  m_model_path s <> "" ->
  (if f_neqb (m_frame_scale s) f_one
   then cv_resize frame (m_frame_scale s) (m_frame_scale s)
   else LibOk frame) = LibOk frame_scaled ->
  cv_image (if channels frame =? 3 then bgr_pixel else unsigned_char) frame_scaled
    = LibOk dlib_frame ->
  detect (m_detector s) dlib_frame = LibOk rects ->
  Forall2 (fun r sh => predict (m_pose_model s) dlib_frame r = LibOk sh) rects shapes ->
  let fr := Frame.mk (zip_with (scaled_face (m_frame_scale s)) rects shapes)
                     (cols frame) (rows frame) in
  addFrame frame s = (Ok fr, set_frames (m_frames s ++ [fr]) s).
Proof.
  intros Hp Hres Himg Hdet Hpred fr. unfold addFrame.
  rewrite (bind_ok get _ s s s) by reflexivity.
  destruct (decide (m_model_path s = "")) as [E|_]; [contradiction|].
  unfold bind at 1. unfold modify at 1.
  set (s1 := set_frames (m_frames s ++ [Frame.mk [] (cols frame) (rows frame)]) s).
  assert (Hext : forall pt,
    cv_image pt frame_scaled = LibOk dlib_frame ->
    on_back (extract_landmarks (m_frame_scale s) (m_detector s) (m_pose_model s) pt frame) s1
    = (Ok tt, set_frames (m_frames s ++ [fr]) s)).
  { intros pt Hi. unfold on_back. subst s1. simpl m_frames. rewrite unsnoc_snoc.
    rewrite (extract_landmarks_ok _ _ _ _ _ _ frame_scaled dlib_frame rects shapes)
      by assumption.
    reflexivity. }
  rewrite (bind_ok _ _ s1 tt (set_frames (m_frames s ++ [fr]) s)).
  2:{ destruct (channels frame =? 3); apply Hext; assumption. }
  unfold on_back. simpl m_frames. rewrite unsnoc_snoc. reflexivity.
Qed.

(** [addFrame] on a bound session when the image wrapper raises: the
    exception propagates, and the frame pushed before the extraction stays
    in the sequence, without faces. *)
Lemma addFrame_wrapper_throws s frame frame_scaled what :
  m_model_path s <> "" ->
  (if f_neqb (m_frame_scale s) f_one
   then cv_resize frame (m_frame_scale s) (m_frame_scale s)
   else LibOk frame) = LibOk frame_scaled ->
  cv_image (if channels frame =? 3 then bgr_pixel else unsigned_char) frame_scaled
    = LibThrow what ->
  addFrame frame s =
  (Throw (library_error what),
   set_frames (m_frames s ++ [Frame.mk [] (cols frame) (rows frame)]) s).
Proof.
  intros Hp Hres Himg. unfold addFrame.
  rewrite (bind_ok get _ s s s) by reflexivity.
  destruct (decide (m_model_path s = "")) as [E|_]; [contradiction|].
  unfold bind at 1. unfold modify at 1.
  set (s1 := set_frames (m_frames s ++ [Frame.mk [] (cols frame) (rows frame)]) s).
  assert (Hext : forall pt,
    cv_image pt frame_scaled = LibThrow what ->
    on_back (extract_landmarks (m_frame_scale s) (m_detector s) (m_pose_model s) pt frame) s1
    = (Throw (library_error what), s1)).
  { intros pt Hi. unfold on_back. subst s1. simpl m_frames. rewrite unsnoc_snoc.
    rewrite (extract_landmarks_wrapper_throws _ _ _ _ _ _ frame_scaled what)
      by assumption.
    reflexivity. }
  apply bind_throw.
  destruct (channels frame =? 3); apply Hext; assumption.
Qed.

End SessionProperties.

(** *** Claims about the session object *)

(** C6, as the code has it.  A session whose stored model path is empty
    rejects ingestion: [addFrame] throws the "model not set" [runtime_error]
    before touching the sequence, so the object is unchanged; for a freshly
    constructed unbound session [size()] is 0 before and after the failed
    call.  The guard looks at the path, not at the predictor. *)
Theorem addFrame_unbound_fails `{V : Vision}
    (s : SequenceFaceLandmarksImpl) (frame : Mat pixels) :
  m_model_path s = "" ->
  addFrame frame s = (Throw model_not_set, s) /\
  (forall frame_scale, s = create frame_scale ->
     size s = 0%nat /\ size (snd (addFrame frame s)) = 0%nat).
Proof.
  intros Hp. pose proof (addFrame_unbound_throws s frame Hp) as E.
  split; [exact E|].
  intros frame_scale ->. rewrite E. split; reflexivity.
Qed.

Lemma addFrame_unbound_fails_witness :
  m_model_path Stub.unbound_session = "" /\
  @addFrame Stub.rational Stub.vision (Stub.image 640 480 3) Stub.unbound_session
  = (Throw model_not_set, Stub.unbound_session) /\
  (forall frame_scale, Stub.unbound_session = @create Stub.rational Stub.vision frame_scale ->
     @size Stub.rational Stub.vision Stub.unbound_session = 0%nat /\
     @size Stub.rational Stub.vision
       (snd (@addFrame Stub.rational Stub.vision (Stub.image 640 480 3)
               Stub.unbound_session)) = 0%nat).
Proof.
  split; [reflexivity|].
  apply (@addFrame_unbound_fails Stub.rational Stub.vision
           Stub.unbound_session (Stub.image 640 480 3)).
  reflexivity.
Defined.

(** C6, as stated, fails: after a [setModel] whose deserialisation threw,
    no model is loaded (the predictor is the default-constructed one), yet
    [addFrame] raises nothing: it returns a frame and appends it. *)
Lemma addFrame_after_failed_setModel_returns :
  fst (@setModel Stub.rational Stub.vision "missing.dat" Stub.unbound_session)
  = Throw (library_error "Unable to open file for reading.") /\
  m_pose_model (snd (@setModel Stub.rational Stub.vision "missing.dat"
                       Stub.unbound_session))
  = @default_predictor Stub.rational Stub.vision /\
  ~ (exists e,
       fst (@addFrame Stub.rational Stub.vision (Stub.image 640 480 3)
              (snd (@setModel Stub.rational Stub.vision "missing.dat"
                      Stub.unbound_session))) = Throw e) /\
  @size Stub.rational Stub.vision
    (snd (@addFrame Stub.rational Stub.vision (Stub.image 640 480 3)
            (snd (@setModel Stub.rational Stub.vision "missing.dat"
                    Stub.unbound_session)))) = 1%nat.
Proof.
  split; [reflexivity|]. split; [reflexivity|]. split.
  - intros [e He]. vm_compute in He. discriminate He.
  - vm_compute. reflexivity.
Qed.

(** C9. [setModel] with an empty path returns at once: the whole object,
    and so the stored model path, the detector and the predictor, is left as
    it was; an existing binding is not cleared. *)
Theorem setModel_empty_path_is_noop `{V : Vision} (s : SequenceFaceLandmarksImpl) :
  setModel "" s = (Ok tt, s).
Proof.
  unfold setModel.
  destruct (decide ("" = "")) as [_|Hne].
  - reflexivity.
  - contradiction Hne. reflexivity.
Qed.

(** C10. When [setModel] is given a non-empty path and the deserialisation of
    the model throws, the exception propagates with [m_model_path] already
    set to the new path; a later [addFrame] therefore does not fail with the
    "model not set" error, although no model was loaded. *)
Theorem setModel_failure_leaves_path_set `{V : Vision}
    (s : SequenceFaceLandmarksImpl) (modelPath what : string) (frame : Mat pixels) :
  modelPath <> "" ->
  snd (deserialize modelPath (m_pose_model s)) = Some what ->
  fst (setModel modelPath s) = Throw (library_error what) /\
  m_model_path (snd (setModel modelPath s)) = modelPath /\
  fst (addFrame frame (snd (setModel modelPath s))) <> Throw model_not_set.
Proof.
  intros Hne Hthrow.
  assert (E : setModel modelPath s =
              (Throw (library_error what),
               set_pose_model (fst (deserialize modelPath (m_pose_model s)))
                 (set_detector get_frontal_face_detector
                    (set_model_path modelPath s)))).
  { unfold setModel. destruct (decide (modelPath = "")) as [E|_]; [contradiction|].
    unfold bind, modify, get.
    change (m_pose_model (set_detector get_frontal_face_detector
                            (set_model_path modelPath s))) with (m_pose_model s).
    destruct (deserialize modelPath (m_pose_model s)) as [model thrown].
    simpl in Hthrow. subst thrown. reflexivity. }
  rewrite E. simpl fst. simpl snd. split; [reflexivity|]. split; [reflexivity|].
  intros Hbad.
  pose proof (addFrame_bound_no_runtime_error
                (set_pose_model (fst (deserialize modelPath (m_pose_model s)))
                   (set_detector get_frontal_face_detector
                      (set_model_path modelPath s))) frame) as N.
  simpl m_model_path in N. specialize (N Hne). rewrite Hbad in N. exact N.
Qed.

Lemma setModel_failure_leaves_path_set_witness :
  "missing.dat" <> "" /\
  snd (@deserialize Stub.rational Stub.vision "missing.dat"
         (m_pose_model Stub.unbound_session)) = Some "Unable to open file for reading." /\
  fst (@setModel Stub.rational Stub.vision "missing.dat" Stub.unbound_session)
  = Throw (library_error "Unable to open file for reading.") /\
  m_model_path (snd (@setModel Stub.rational Stub.vision "missing.dat" Stub.unbound_session))
  = "missing.dat" /\
  fst (@addFrame Stub.rational Stub.vision (Stub.image 640 480 3)
         (snd (@setModel Stub.rational Stub.vision "missing.dat" Stub.unbound_session)))
  <> Throw model_not_set.
Proof.
  split; [discriminate|]. split; [reflexivity|].
  apply (@setModel_failure_leaves_path_set Stub.rational Stub.vision
           Stub.unbound_session "missing.dat" "Unable to open file for reading."
           (Stub.image 640 480 3)).
  - discriminate.
  - reflexivity.
Defined.

(** In range, [operator[]] returns the frame at the index. *)
Lemma operator_index_in_range `{V : Vision} (s : SequenceFaceLandmarksImpl) (i : nat) :
  (i < size s)%nat ->
  exists f, m_frames s !! i = Some f /\ operator_index i s = (Ok f, s).
Proof.
  intros Hi. destruct (lookup_lt_is_Some_2 (m_frames s) i Hi) as [f Hf].
  exists f. split; [exact Hf|].
  unfold operator_index. rewrite (bind_ok get _ s s s) by reflexivity.
  now rewrite Hf.
Qed.

(** C8, as the code has it.  [operator[]] makes no range check: for an index
    at or beyond [size()] it performs the unchecked vector access, whose
    behaviour is undefined; no exception, and so no "bounds" condition, is
    raised, and the object is not changed. *)
Theorem operator_index_unchecked `{V : Vision} (s : SequenceFaceLandmarksImpl) (i : nat) :
  (size s <= i)%nat ->
  operator_index i s = (Undefined, s) /\
  (forall e, fst (operator_index i s) <> Throw e).
Proof.
  intros Hi.
  assert (E : operator_index i s = (Undefined, s)).
  { unfold operator_index. rewrite (bind_ok get _ s s s) by reflexivity.
    now rewrite (lookup_ge_None_2 (m_frames s) i Hi). }
  split; [exact E|]. intros e. rewrite E. discriminate.
Qed.

Lemma operator_index_unchecked_witness :
  (@size Stub.rational Stub.vision Stub.sample_session <= 2)%nat /\
  @operator_index Stub.rational Stub.vision 2 Stub.sample_session
  = (Undefined, Stub.sample_session) /\
  (forall e, fst (@operator_index Stub.rational Stub.vision 2 Stub.sample_session)
             <> Throw e).
Proof.
  split; [vm_compute; lia|].
  apply (@operator_index_unchecked Stub.rational Stub.vision Stub.sample_session 2%nat).
  vm_compute. lia.
Defined.

(** C8, as stated, fails: index 0 of an empty sequence is outside
    [[0, size())], and the access raises nothing. *)
Lemma operator_index_raises_no_bounds_error :
  (@size Stub.rational Stub.vision Stub.unbound_session <= 0)%nat /\
  ~ (exists e, fst (@operator_index Stub.rational Stub.vision 0 Stub.unbound_session)
               = Throw e).
Proof.
  split; [vm_compute; lia|]. intros [e He]. vm_compute in He. discriminate He.
Qed.

(** ** The renderer *)

Section RendererProperties.
Context {Scalar : Type}.
Implicit Types (landmarks : list Point.t) (color : Scalar) (thickness : Z).
Implicit Types (img out : list (draw Scalar)).

Lemma draws_ret : draws (ret tt) ([] : list (draw Scalar)).
Proof. intros img. unfold ret. now rewrite app_nil_r. Qed.

Lemma draws_seq (m1 m2 : M (canvas Scalar) unit) out1 out2 :
  draws m1 out1 -> draws m2 out2 -> draws (m1 ;; m2) (out1 ++ out2).
Proof.
  intros H1 H2 img. rewrite (bind_ok m1 _ img tt (img ++ out1)) by apply H1.
  rewrite H2. now rewrite app_assoc.
Qed.

Lemma draws_eq (m : M (canvas Scalar) unit) out out' :
  draws m out -> out = out' -> draws m out'.
Proof. now intros D <-. Qed.

Lemma draws_for_each (idx : list nat) (body : nat -> M (canvas Scalar) unit)
      (f : nat -> draw Scalar) :
  Forall (fun i => draws (body i) [f i]) idx ->
  draws (for_each idx body) (map f idx).
Proof.
  induction 1 as [|i idx Hi _ IH]; simpl.
  - apply draws_ret.
  - apply (draws_seq _ _ [f i] (map f idx)); assumption.
Qed.

Lemma at_index_in_range landmarks i img :
  (i < length landmarks)%nat ->
  at_index landmarks i img = (Ok (landmark landmarks i), img).
Proof.
  intros Hi. unfold at_index, landmark.
  destruct (lookup_lt_is_Some_2 landmarks i Hi) as [p Hp]. rewrite Hp.
  apply nth_lookup_Some with (d := Point.mk 0 0) in Hp. now rewrite Hp.
Qed.

Lemma at_index_out_of_range landmarks i img :
  (length landmarks <= i)%nat ->
  at_index (Scalar := Scalar) landmarks i img = (Undefined, img).
Proof.
  intros Hi. unfold at_index. now rewrite (lookup_ge_None_2 landmarks i Hi).
Qed.

Lemma draws_line_between landmarks i j color thickness :
  (i < length landmarks)%nat -> (j < length landmarks)%nat ->
  draws (line_between landmarks i j color thickness)
        [contour_line landmarks color thickness (i, j)].
Proof.
  intros Hi Hj img. unfold line_between.
  rewrite (bind_ok _ _ img _ img (at_index_in_range landmarks i img Hi)).
  rewrite (bind_ok _ _ img _ img (at_index_in_range landmarks j img Hj)).
  reflexivity.
Qed.

Lemma draws_polyline landmarks lo hi color thickness :
  (hi < length landmarks)%nat ->
  draws (polyline landmarks lo hi color thickness)
        (map (fun i => contour_line landmarks color thickness (i, (i - 1)%nat))
             (seq lo (S hi - lo))).
Proof.
  intros Hhi. unfold polyline, for_range. apply draws_for_each.
  apply Forall_forall. intros i Hi. apply elem_of_seq in Hi.
  apply draws_line_between; lia.
Qed.

Lemma draws_labels landmarks color thickness :
  draws (for_below (length landmarks) (fun i =>
           p <- at_index landmarks i ;;
           emit (PutText (to_string i) p color thickness)))
        (map (label landmarks color thickness) (seq 0 (length landmarks))).
Proof.
  unfold for_below. apply draws_for_each.
  apply Forall_forall. intros i Hi. apply elem_of_seq in Hi. intros img.
  rewrite (bind_ok _ _ img _ img (at_index_in_range landmarks i img ltac:(lia))).
  reflexivity.
Qed.

(** The 68-point branch, without the labels. *)
Lemma draws_contours landmarks color thickness :
  length landmarks = 68%nat ->
  draws (polyline landmarks 1 16 color thickness ;;
         polyline landmarks 28 30 color thickness ;;
         polyline landmarks 18 21 color thickness ;;
         polyline landmarks 23 26 color thickness ;;
         polyline landmarks 31 35 color thickness ;;
         line_between landmarks 30 35 color thickness ;;
         polyline landmarks 37 41 color thickness ;;
         line_between landmarks 36 41 color thickness ;;
         polyline landmarks 43 47 color thickness ;;
         line_between landmarks 42 47 color thickness ;;
         polyline landmarks 49 59 color thickness ;;
         line_between landmarks 48 59 color thickness ;;
         polyline landmarks 61 67 color thickness ;;
         line_between landmarks 60 67 color thickness)
        (map (contour_line landmarks color thickness) contour_segments).
Proof.
  intros Hlen. eapply draws_eq.
  - repeat
      (match goal with
       | |- draws (bind _ _) _ => eapply draws_seq
       | |- draws (polyline _ _ _ _ _) _ => apply draws_polyline; lia
       | |- draws (line_between _ _ _ _ _) _ => apply draws_line_between; lia
       end).
  - reflexivity.
Qed.

(** The fallback loop on the landmarks still to visit: it draws a marker
    for each of them while the counter stays below 68. *)
Lemma fallback_loop color thickness :
  forall (todo seen : list Point.t) (n : nat) img,
    for_each (seq (length seen) n) (fun i =>
      p <- at_index (seen ++ todo) i ;;
      emit (marker color thickness p)) img
    = (if (n <=? length todo)%nat then Ok tt else Undefined,
       img ++ map (marker color thickness) (firstn n todo)).
Proof.
  induction todo as [|p todo IH]; intros seen n img.
  - destruct n as [|n]; simpl.
    + unfold ret. now rewrite app_nil_r.
    + rewrite (bind_undefined _ _ img img).
      * now rewrite app_nil_r.
      * rewrite (bind_undefined _ _ img img); [reflexivity|].
        apply at_index_out_of_range. rewrite app_nil_r. lia.
  - destruct n as [|n]; simpl.
    + unfold ret. now rewrite app_nil_r.
    + rewrite (bind_ok _ _ img tt (img ++ [marker color thickness p])).
      * specialize (IH (seen ++ [p]) n (img ++ [marker color thickness p])).
        rewrite length_app in IH. simpl in IH. rewrite Nat.add_1_r in IH.
        rewrite <- app_assoc in IH. simpl in IH. rewrite IH.
        now rewrite <- app_assoc.
      * unfold at_index. rewrite lookup_app_r by lia. rewrite Nat.sub_diag.
        reflexivity.
Qed.

(** The fallback branch on any list: a marker at each of the first 68
    points; it completes only if there are at least 68 of them. *)
Lemma fallback_markers landmarks color thickness img :
  for_below 68 (fun i =>
    p <- at_index landmarks i ;;
    emit (Circle p thickness color (-1))) img
  = (if (68 <=? length landmarks)%nat then Ok tt else Undefined,
     img ++ map (marker color thickness) (firstn 68 landmarks)).
Proof.
  exact (fallback_loop color thickness landmarks [] 68%nat img).
Qed.

End RendererProperties.

(** *** Claims about the renderer *)

(** C3, as the code has it.  For a list of exactly 68 landmarks [render]
    draws the 65 segments of [contour_segments], in that order and no other
    line: each joins the landmarks at the two 0-based indices of its entry.
    By feature that is 16 segments for the jaw, 4 for each eyebrow, 3 for the
    nose bridge, 6 for the lower nose, 6 for each eye, 12 for the outer mouth
    and 8 for the inner mouth, the closing segments included; the labels
    follow when [drawLabels] is set. *)
Theorem render_landmarks_contours {Scalar : Type} (landmarks : list Point.t)
    (drawLabels : bool) (color : Scalar) (thickness : Z) (img : list (draw Scalar)) :
  length landmarks = 68%nat ->
  render_landmarks landmarks drawLabels color thickness img =
  (Ok tt,
   img ++ map (contour_line landmarks color thickness) contour_segments
       ++ (if drawLabels
           then map (label landmarks color thickness) (seq 0 68)
           else [])) /\
  length contour_segments = 65%nat /\
  map (fun f => length (table_segments f)) all_features = map drawn_segments all_features.
Proof.
  intros Hlen. split; [|split; reflexivity].
  unfold render_landmarks. rewrite Hlen. change (68 =? 68)%nat with true. cbv iota.
  apply draws_seq.
  - apply draws_contours. exact Hlen.
  - destruct drawLabels.
    + rewrite <- Hlen. apply draws_labels.
    + apply draws_ret.
Qed.

Lemma render_landmarks_contours_witness :
  length (Stub.synthetic 68) = 68%nat /\
  render_landmarks (Stub.synthetic 68) false tt 1 [] =
  (Ok tt,
   [] ++ map (contour_line (Stub.synthetic 68) tt 1) contour_segments ++ []) /\
  length contour_segments = 65%nat /\
  map (fun f => length (table_segments f)) all_features = map drawn_segments all_features.
Proof.
  split; [reflexivity|].
  apply (render_landmarks_contours (Stub.synthetic 68) false tt 1 []).
  reflexivity.
Defined.

(** C3, as stated, fails: on the synthetic 68-point input the jaw receives 16
    segments where the claim counts 15, and no feature receives the count
    the claim gives it. *)
Lemma render_landmarks_counts_differ :
  length (Stub.synthetic 68) = 68%nat /\
  segments_drawn jaw (Stub.synthetic 68)
    (snd (render_landmarks (Stub.synthetic 68) false tt 1 [])) = 16%nat /\
  specified_segments jaw = 15%nat /\
  Forall (fun f =>
            segments_drawn f (Stub.synthetic 68)
              (snd (render_landmarks (Stub.synthetic 68) false tt 1 []))
            <> specified_segments f) all_features.
Proof.
  split; [reflexivity|]. split; [vm_compute; reflexivity|]. split; [reflexivity|].
  repeat constructor; vm_compute; discriminate.
Qed.

(** The fallback branch on a list of more than 68 landmarks: a marker at
    each of the first 68, and the call completes. *)
Lemma render_landmarks_fallback_long {Scalar : Type} (landmarks : list Point.t)
    (color : Scalar) (thickness : Z) (img : list (draw Scalar)) :
  (68 < length landmarks)%nat ->
  render_landmarks landmarks false color thickness img =
  (Ok tt, img ++ map (marker color thickness) (firstn 68 landmarks)).
Proof.
  intros Hlen. unfold render_landmarks.
  destruct (Nat.eqb_spec (length landmarks) 68) as [E|_]; [lia|].
  rewrite (bind_ok _ _ img tt (img ++ map (marker color thickness) (firstn 68 landmarks))).
  - reflexivity.
  - rewrite fallback_markers.
    destruct (Nat.leb_spec 68 (length landmarks)) as [_|L]; [reflexivity|lia].
Qed.

(** C4 at the failing inputs.  On a list of fewer than 68 landmarks the
    fallback branch draws a marker at every point and then reads
    [landmarks[length]], out of range: the call's behaviour is undefined. *)
Theorem render_landmarks_fallback_short {Scalar : Type} (landmarks : list Point.t)
    (drawLabels : bool) (color : Scalar) (thickness : Z) (img : list (draw Scalar)) :
  (length landmarks < 68)%nat ->
  render_landmarks landmarks drawLabels color thickness img =
  (Undefined, img ++ map (marker color thickness) landmarks).
Proof.
  intros Hlen. unfold render_landmarks.
  destruct (Nat.eqb_spec (length landmarks) 68) as [E|_]; [lia|].
  apply bind_undefined. rewrite fallback_markers.
  destruct (Nat.leb_spec 68 (length landmarks)) as [L|_]; [lia|].
  rewrite firstn_all2 by lia. reflexivity.
Qed.

Lemma render_landmarks_fallback_short_witness :
  (length (Stub.synthetic 5) < 68)%nat /\
  render_landmarks (Stub.synthetic 5) false tt 1 [] =
  (Undefined, [] ++ map (marker tt 1) (Stub.synthetic 5)).
Proof.
  split; [vm_compute; lia|].
  apply (render_landmarks_fallback_short (Stub.synthetic 5) false tt 1 []).
  vm_compute. lia.
Defined.

(** ** The wire encoding: parsing what was written *)

Module WireFacts.
Import Wire.

Lemma to_N_byte_of_N (n : N) : Byte.to_N (byte_of_N n) = (n mod 256)%N.
Proof.
  unfold byte_of_N.
  destruct (Byte.of_N (n mod 256)) as [b|] eqn:E.
  - now apply Byte.to_of_N.
  - apply Byte.of_N_None_iff in E.
    pose proof (N.mod_upper_bound n 256 ltac:(discriminate)). lia.
Qed.

Lemma get_put_varint (fuel : nat) :
  forall (n : N) (rest : list byte),
    (n < 2 ^ (7 * N.of_nat (S fuel)))%N ->
    get_varint (put_varint (S fuel) n ++ rest) = Some (n, rest).
Proof.
  induction fuel as [|fuel IH]; intros n rest Hn.
  - change (2 ^ (7 * N.of_nat 1))%N with 128%N in Hn.
    simpl put_varint. destruct (N.ltb_spec n 128) as [Hs|Hb]; [|lia].
    simpl. rewrite to_N_byte_of_N.
    rewrite N.mod_small by lia.
    destruct (N.ltb_spec n 128); [reflexivity|lia].
  - remember (S fuel) as fuel1 eqn:Ef.
    simpl put_varint. destruct (N.ltb_spec n 128) as [Hs|Hb].
    + simpl. rewrite to_N_byte_of_N.
      rewrite N.mod_small by lia.
      destruct (N.ltb_spec n 128); [reflexivity|lia].
    + assert (Hq : (n / 128 < 2 ^ (7 * N.of_nat fuel1))%N).
      { apply N.Div0.div_lt_upper_bound.
        replace (7 * N.of_nat (S fuel1))%N with (7 + 7 * N.of_nat fuel1)%N in Hn by lia.
        rewrite N.pow_add_r in Hn. exact Hn. }
      pose proof (N.mod_upper_bound n 128 ltac:(discriminate)) as Hm.
      pose proof (N.div_mod n 128 ltac:(discriminate)) as Hd.
      specialize (IH (n / 128)%N rest Hq). clear Hn Hq.
      remember (n mod 128)%N as m eqn:Em. remember (n / 128)%N as q eqn:Eq.
      clear Em Eq.
      cbn [app get_varint]. rewrite to_N_byte_of_N.
      rewrite N.mod_small by lia.
      destruct (N.ltb_spec (128 + m) 128) as [Hlt|_]; [lia|].
      rewrite IH. f_equal. f_equal. lia.
Qed.

Lemma get_varint_varint (n : N) (rest : list byte) :
  get_varint (varint n ++ rest) = Some (n, rest).
Proof.
  unfold varint. apply get_put_varint.
  eapply N.lt_le_trans; [apply N.size_gt|].
  apply N.pow_le_mono_r; [discriminate|]. lia.
Qed.

Lemma get_varint_shorter (input : list byte) :
  forall n rest, get_varint input = Some (n, rest) ->
                 (length rest < length input)%nat.
Proof.
  induction input as [|b input IH]; intros n rest E; simpl in E.
  - discriminate.
  - destruct (Byte.to_N b <? 128)%N.
    + injection E as _ <-. simpl. lia.
    + destruct (get_varint input) as [[hi rest']|]; [|discriminate].
      injection E as _ <-. specialize (IH hi rest' eq_refl). simpl. lia.
Qed.

Lemma take_exactly_length (n : nat) (input taken rest : list byte) :
  take_exactly n input = Some (taken, rest) -> (length rest <= length input)%nat.
Proof.
  unfold take_exactly. destruct (n <=? length input)%nat; [|discriminate].
  intros E. injection E as _ <-. rewrite length_skipn. lia.
Qed.

Lemma take_exactly_app (payload rest : list byte) :
  take_exactly (length payload) (payload ++ rest) = Some (payload, rest).
Proof.
  unfold take_exactly. rewrite length_app.
  destruct (Nat.leb_spec (length payload) (length payload + length rest)); [|lia].
  rewrite firstn_app, Nat.sub_diag, firstn_all, firstn_O, app_nil_r.
  rewrite skipn_app, Nat.sub_diag, skipn_all. reflexivity.
Qed.

Lemma read_field_shorter (input : list byte) number v rest :
  read_field input = Some (number, v, rest) -> (length rest < length input)%nat.
Proof.
  unfold read_field.
  destruct (get_varint input) as [[k r1]|] eqn:E1; [|discriminate].
  apply get_varint_shorter in E1.
  destruct (k / 8 =? 0)%N; [discriminate|].
  destruct (k mod 8)%N as [|[[[]|[]|]|[[]|[]|]|]]; try discriminate.
  all: repeat
         (match goal with
          | |- match get_varint ?r with _ => _ end = _ -> _ =>
              destruct (get_varint r) as [[? ?]|] eqn:?; [|discriminate]
          | |- match take_exactly ?n ?r with _ => _ end = _ -> _ =>
              destruct (take_exactly n r) as [[? ?]|] eqn:?; [|discriminate]
          | H : get_varint _ = Some _ |- _ => apply get_varint_shorter in H
          | H : take_exactly _ _ = Some _ |- _ => apply take_exactly_length in H
          end).
  all: intros E; injection E as _ _ <-; lia.
Qed.

Lemma read_fields_fuel (fuel1 : nat) :
  forall (fuel2 : nat) (input : list byte),
    (length input <= fuel1)%nat -> (length input <= fuel2)%nat ->
    read_fields fuel1 input = read_fields fuel2 input.
Proof.
  induction fuel1 as [|fuel1 IH]; intros fuel2 input H1 H2.
  - destruct input; [|simpl in H1; lia]. destruct fuel2; reflexivity.
  - destruct input as [|b input]; [destruct fuel2; reflexivity|].
    destruct fuel2 as [|fuel2]; [simpl in H2; lia|].
    simpl. destruct (read_field (b :: input)) as [[[number v] rest]|] eqn:E; [|reflexivity].
    apply read_field_shorter in E. simpl in *.
    rewrite (IH fuel2 rest) by lia. reflexivity.
Qed.

Lemma fields_nil : fields [] = ([], true).
Proof. reflexivity. Qed.

Lemma fields_step (input : list byte) number v rest :
  read_field input = Some (number, v, rest) ->
  fields input = ((number, v) :: fst (fields rest), snd (fields rest)).
Proof.
  intros E. unfold fields. pose proof (read_field_shorter _ _ _ _ E) as L.
  destruct input as [|b input]; [simpl in L; lia|].
  simpl length. simpl read_fields. rewrite E.
  rewrite (read_fields_fuel (length input) (length rest) rest) by (simpl in L; lia).
  destruct (read_fields (length rest) rest). reflexivity.
Qed.

Lemma key_number (number wire_type : N) :
  (wire_type < 8)%N -> (key number wire_type / 8 = number)%N.
Proof.
  intros Hw. unfold key. symmetry.
  apply (N.div_unique _ 8 number wire_type); lia.
Qed.

Lemma key_wire_type (number wire_type : N) :
  (wire_type < 8)%N -> (key number wire_type mod 8 = wire_type)%N.
Proof.
  intros Hw. unfold key. symmetry.
  apply (N.mod_unique _ 8 number wire_type); lia.
Qed.

Lemma read_field_varint (number n : N) (rest : list byte) :
  number <> 0%N ->
  read_field (varint (key number 0) ++ varint n ++ rest) = Some (number, Varint n, rest).
Proof.
  intros Hn. unfold read_field. rewrite get_varint_varint.
  rewrite key_number, key_wire_type by lia.
  destruct (N.eqb_spec number 0); [contradiction|].
  now rewrite get_varint_varint.
Qed.

Lemma read_field_message (number : N) (payload rest : list byte) :
  number <> 0%N ->
  read_field (put_message number payload ++ rest) = Some (number, Bytes payload, rest).
Proof.
  intros Hn. unfold read_field, put_message. rewrite <- !app_assoc.
  rewrite get_varint_varint.
  rewrite key_number, key_wire_type by lia.
  destruct (N.eqb_spec number 0); [contradiction|].
  rewrite get_varint_varint. rewrite Nat2N.id.
  now rewrite take_exactly_app.
Qed.

Lemma fields_put_int32 (number : N) (v : Z) (rest : list byte) :
  number <> 0%N ->
  fields (put_int32 number v ++ rest)
  = (int32_field number v ++ fst (fields rest), snd (fields rest)).
Proof.
  intros Hn. unfold put_int32, int32_field. destruct (v =? 0).
  - simpl. now destruct (fields rest).
  - rewrite <- app_assoc. erewrite fields_step by (apply read_field_varint; exact Hn).
    reflexivity.
Qed.

Lemma fields_put_message (number : N) (payload rest : list byte) :
  number <> 0%N ->
  fields (put_message number payload ++ rest)
  = ((number, Bytes payload) :: fst (fields rest), snd (fields rest)).
Proof.
  intros Hn. erewrite fields_step by (apply read_field_message; exact Hn).
  reflexivity.
Qed.

Lemma fields_messages {A} (number : N) (write : A -> list byte) (l : list A)
      (rest : list byte) :
  number <> 0%N ->
  fields (concat (map (fun a => put_message number (write a)) l) ++ rest)
  = (map (fun a => (number, Bytes (write a))) l ++ fst (fields rest),
     snd (fields rest)).
Proof.
  intros Hn. induction l as [|a l IH]; simpl.
  - now destruct (fields rest).
  - rewrite <- app_assoc. rewrite fields_put_message by exact Hn.
    rewrite IH. reflexivity.
Qed.

Lemma int32_round_trip (v : Z) :
  int32_range v -> int32_of_uint64 (uint64_of_int32 v) = v.
Proof.
  unfold int32_range, int32_of_uint64, uint64_of_int32. intros Hv.
  rewrite Z2N.id by (apply Z.mod_pos_bound; lia).
  destruct (Z.le_gt_cases 0 v) as [Hp|Hneg].
  - rewrite (Z.mod_small v (2 ^ 64)) by lia.
    rewrite (Z.mod_small v (2 ^ 32)) by lia.
    destruct (Z.ltb_spec v (2 ^ 31)); lia.
  - replace (v mod 2 ^ 64) with (v + 2 ^ 64)
      by (apply (Z.mod_unique v (2 ^ 64) (-1) (v + 2 ^ 64)); lia).
    replace ((v + 2 ^ 64) mod 2 ^ 32) with (v + 2 ^ 32)
      by (apply (Z.mod_unique (v + 2 ^ 64) (2 ^ 32) (2 ^ 32 - 1) (v + 2 ^ 32)); lia).
    destruct (Z.ltb_spec (v + 2 ^ 32) (2 ^ 31)); lia.
Qed.

(** *** Messages *)

Lemma fields_last (input : list byte) : fields input = fields (input ++ []).
Proof. now rewrite app_nil_r. Qed.

Lemma read_write_point (p : io.Point.t) :
  io.point_in_range p ->
  read_point (io.Point.mk 0 0) (write_point p) = (p, true).
Proof.
  destruct p as [x y]. intros [Hx Hy]. simpl in Hx, Hy.
  unfold read_point, write_point. simpl io.Point.x. simpl io.Point.y.
  rewrite fields_put_int32 by discriminate.
  rewrite fields_last, fields_put_int32 by discriminate.
  rewrite fields_nil. simpl fst. simpl snd. rewrite app_nil_r.
  unfold int32_field.
  destruct (Z.eqb_spec x 0) as [->|_]; destruct (Z.eqb_spec y 0) as [->|_];
    simpl; rewrite ?int32_round_trip by assumption; reflexivity.
Qed.

Lemma read_write_bbox (b : io.BoundingBox.t) :
  io.bbox_in_range b ->
  read_bbox io.BoundingBox.default_instance (write_bbox b) = (b, true).
Proof.
  destruct b as [l t w h]. intros (Hl & Ht & Hw & Hh). simpl in Hl, Ht, Hw, Hh.
  unfold read_bbox, write_bbox.
  simpl io.BoundingBox.left. simpl io.BoundingBox.top.
  simpl io.BoundingBox.width. simpl io.BoundingBox.height.
  rewrite !fields_put_int32 by discriminate.
  rewrite fields_last, fields_put_int32 by discriminate.
  rewrite fields_nil. simpl fst. simpl snd. rewrite app_nil_r.
  unfold int32_field.
  destruct (Z.eqb_spec l 0) as [->|_]; destruct (Z.eqb_spec t 0) as [->|_];
    destruct (Z.eqb_spec w 0) as [->|_]; destruct (Z.eqb_spec h 0) as [->|_];
    simpl; rewrite ?int32_round_trip by assumption; reflexivity.
Qed.

Lemma merge_face_landmarks (pts : list io.Point.t) :
  forall (hb : option io.BoundingBox.t) (ls : list io.Point.t),
    Forall io.point_in_range pts ->
    merge_face (io.Face.mk hb ls) (map (fun p => (2%N, Bytes (write_point p))) pts)
    = (io.Face.mk hb (ls ++ pts), true).
Proof.
  induction pts as [|p pts IH]; intros hb ls Hpts.
  - simpl. now rewrite app_nil_r.
  - inversion Hpts as [|? ? Hp Hrest]; subst.
    simpl map. simpl merge_face. rewrite (read_write_point p Hp).
    simpl io.Face.has_bbox. simpl io.Face.landmarks.
    rewrite (IH hb (ls ++ [p]) Hrest). now rewrite <- app_assoc.
Qed.

Lemma read_write_face (f : io.Face.t) :
  io.face_in_range f -> read_face (write_face f) = (f, true).
Proof.
  destruct f as [hb pts]. intros [Hb Hpts]. simpl in Hb, Hpts.
  unfold read_face, write_face. simpl io.Face.has_bbox. simpl io.Face.landmarks.
  destruct hb as [b|].
  - rewrite fields_put_message by discriminate.
    rewrite fields_last, fields_messages by discriminate.
    rewrite fields_nil. simpl fst. simpl snd. rewrite app_nil_r.
    simpl merge_face. unfold io.Face.bbox. simpl io.Face.has_bbox. cbv iota.
    rewrite (read_write_bbox b Hb). simpl io.Face.landmarks.
    rewrite (merge_face_landmarks pts (Some b) [] Hpts). reflexivity.
  - simpl app. rewrite fields_last, fields_messages by discriminate.
    rewrite fields_nil. simpl fst. simpl snd. rewrite app_nil_r.
    rewrite (merge_face_landmarks pts None [] Hpts). reflexivity.
Qed.

Lemma merge_frame_faces (faces : list io.Face.t) :
  forall (w h : Z) (fs : list io.Face.t),
    Forall io.face_in_range faces ->
    merge_frame (io.Frame.mk w h fs)
                (map (fun face => (3%N, Bytes (write_face face))) faces)
    = (io.Frame.mk w h (fs ++ faces), true).
Proof.
  induction faces as [|face faces IH]; intros w h fs Hfaces.
  - simpl. now rewrite app_nil_r.
  - inversion Hfaces as [|? ? Hf Hrest]; subst.
    simpl map. simpl merge_frame. rewrite (read_write_face face Hf).
    simpl io.Frame.width. simpl io.Frame.height. simpl io.Frame.faces.
    rewrite (IH w h (fs ++ [face]) Hrest). now rewrite <- app_assoc.
Qed.

Lemma read_write_frame (f : io.Frame.t) :
  io.frame_in_range f -> read_frame (write_frame f) = (f, true).
Proof.
  destruct f as [w h faces]. intros (Hw & Hh & Hfaces). simpl in Hw, Hh, Hfaces.
  unfold read_frame, write_frame.
  simpl io.Frame.width. simpl io.Frame.height. simpl io.Frame.faces.
  rewrite !fields_put_int32 by discriminate.
  rewrite fields_last, fields_messages by discriminate.
  rewrite fields_nil. simpl fst. simpl snd. rewrite app_nil_r.
  unfold int32_field.
  destruct (Z.eqb_spec w 0) as [->|_]; destruct (Z.eqb_spec h 0) as [->|_];
    simpl app; cbn [merge_frame];
    simpl io.Frame.width; simpl io.Frame.height; simpl io.Frame.faces;
    rewrite ?int32_round_trip by assumption;
    rewrite (merge_frame_faces faces _ _ [] Hfaces); reflexivity.
Qed.

Lemma merge_sequence_frames (frames : list io.Frame.t) :
  forall (fs : list io.Frame.t),
    Forall io.frame_in_range frames ->
    merge_sequence (io.Sequence.mk fs)
                   (map (fun f => (1%N, Bytes (write_frame f))) frames)
    = (io.Sequence.mk (fs ++ frames), true).
Proof.
  induction frames as [|f frames IH]; intros fs Hframes.
  - simpl. now rewrite app_nil_r.
  - inversion Hframes as [|? ? Hf Hrest]; subst.
    simpl map. simpl merge_sequence. rewrite (read_write_frame f Hf).
    simpl io.Sequence.frames.
    rewrite (IH (fs ++ [f]) Hrest). now rewrite <- app_assoc.
Qed.

(** Parsing the bytes written for a message whose fields are [int32]s
    gives the message back, and succeeds. *)
Lemma parse_write_sequence (m : io.Sequence.t) :
  io.sequence_in_range m -> parse (Some (write_sequence m)) = (m, true).
Proof.
  destruct m as [frames]. unfold io.sequence_in_range. simpl io.Sequence.frames.
  intros Hframes. unfold parse, read_sequence, write_sequence.
  simpl io.Sequence.frames.
  rewrite fields_last, fields_messages by discriminate.
  rewrite fields_nil. simpl fst. simpl snd. rewrite app_nil_r.
  unfold io.Sequence.empty.
  rewrite (merge_sequence_frames frames [] Hframes). reflexivity.
Qed.

(** Without a byte to read the message stays empty. *)
Lemma parse_nothing :
  fst (parse None) = io.Sequence.empty /\ fst (parse (Some [])) = io.Sequence.empty.
Proof. split; reflexivity. Qed.

End WireFacts.

(** ** [load] and [save] *)

Section SerializerProperties.
Context `{V : Vision} `{P : Protobuf} `{FS : Paths}.

Lemma load_save_point (p : Point.t) : load_point (save_point p) = p.
Proof. now destruct p. Qed.

Lemma load_save_face (f : Face.t) : load_face (save_face f) = f.
Proof.
  destruct f as [[x y w h] pts]. unfold load_face, save_face. simpl.
  f_equal. rewrite map_map. rewrite <- (map_id pts) at 2.
  apply map_ext. intros p. apply load_save_point.
Qed.

Lemma load_save_frame (f : Frame.t) : load_frame (save_frame f) = f.
Proof.
  destruct f as [faces w h]. unfold load_frame, save_frame. simpl.
  f_equal. rewrite map_map. rewrite <- (map_id faces) at 2.
  apply map_ext. intros face. apply load_save_face.
Qed.

Lemma load_save_frames (frames : list Frame.t) :
  map load_frame (map save_frame frames) = frames.
Proof.
  rewrite map_map. rewrite <- (map_id frames) at 2.
  apply map_ext. intros f. apply load_save_frame.
Qed.

Lemma save_point_in_range (p : Point.t) :
  point_in_range p -> io.point_in_range (save_point p).
Proof. intros Hp. exact Hp. Qed.

Lemma save_face_in_range (f : Face.t) :
  face_in_range f -> io.face_in_range (save_face f).
Proof.
  intros [Hb Hpts]. split.
  - exact Hb.
  - simpl. apply List.Forall_map. eapply List.Forall_impl; [|exact Hpts].
    intros p. apply save_point_in_range.
Qed.

Lemma save_frame_in_range (f : Frame.t) :
  frame_in_range f -> io.frame_in_range (save_frame f).
Proof.
  intros (Hw & Hh & Hfaces). split; [exact Hw|]. split; [exact Hh|].
  simpl. apply List.Forall_map. eapply List.Forall_impl; [|exact Hfaces].
  intros face. apply save_face_in_range.
Qed.

(** The message [save] builds holds [int32]s when the sequence holds [int]s. *)
Lemma save_sequence_in_range (frames : list Frame.t) :
  sequence_in_range frames ->
  io.sequence_in_range (io.Sequence.mk (map save_frame frames)).
Proof.
  intros Hs. unfold io.sequence_in_range. simpl.
  apply List.Forall_map. eapply List.Forall_impl; [|exact Hs].
  intros f. apply save_frame_in_range.
Qed.

(** [load] in one step: the sequence is replaced by the frames of
    whatever message the parser leaves, and the call returns normally. *)
Lemma load_unfold (filePath : string) (fs : file_store)
      (s : SequenceFaceLandmarksImpl) :
  load filePath fs s =
  (Ok tt,
   set_frames
     (map load_frame
        (io.Sequence.frames (fst (ParseFromIstream (ifstream filePath fs)))))
     s).
Proof.
  unfold load, clear. unfold bind, modify.
  destruct (ParseFromIstream (ifstream filePath fs)) as [sequence result].
  reflexivity.
Qed.

(** Reading back the path a stream has just written to. *)
Lemma ifstream_ofstream (filePath : string) (bytes : list byte) (fs : file_store) :
  is_Some (file_of filePath) ->
  ifstream filePath (ofstream filePath bytes fs) = Some bytes.
Proof.
  intros [file E]. unfold ifstream, ofstream. rewrite E. apply lookup_insert_eq.
Qed.


End SerializerProperties.

(** *** Claims about the serializer *)

(** C1. Saving a sequence to a file and loading that file gives the sequence
    back: when the path can be opened, so that [save] does write the file,
    and the protobuf runtime parses what it serialised into the same
    message, every in-memory sequence (all fields 32-bit integers) saved to
    the path and loaded from it into any session leaves that session's
    frames equal to the saved ones: the same frames in the same order, each
    with its width, height, boxes and landmark lists. *)
Theorem save_load_round_trip `{V : Vision} `{P : Protobuf} `{FS : Paths}
    (saver loader : SequenceFaceLandmarksImpl) (filePath : string) (fs : file_store) :
  is_Some (file_of filePath) ->
  (forall m, io.sequence_in_range m ->
             fst (ParseFromIstream (Some (SerializeToOstream m))) = m) ->
  sequence_in_range (m_frames saver) ->
  fst (save filePath saver fs) = Ok tt /\
  load filePath (snd (save filePath saver fs)) loader
  = (Ok tt, set_frames (m_frames saver) loader).
Proof.
  intros Hopen Hcodec Hrange. split; [reflexivity|].
  rewrite load_unfold. unfold save. simpl snd.
  rewrite (ifstream_ofstream _ _ _ Hopen).
  rewrite (Hcodec _ (save_sequence_in_range _ Hrange)).
  simpl io.Sequence.frames. rewrite load_save_frames. reflexivity.
Qed.

Lemma save_load_round_trip_witness :
  is_Some (@file_of Stub.paths "sequence.pb") /\
  sequence_in_range (m_frames Stub.sample_session) /\
  fst (@save Stub.rational Stub.vision Wire.runtime Stub.paths "sequence.pb"
         Stub.sample_session ∅) = Ok tt /\
  @load Stub.rational Stub.vision Wire.runtime Stub.paths "sequence.pb"
    (snd (@save Stub.rational Stub.vision Wire.runtime Stub.paths "sequence.pb"
            Stub.sample_session ∅))
    Stub.unbound_session
  = (Ok tt,
     @set_frames Stub.rational Stub.vision (m_frames Stub.sample_session)
       Stub.unbound_session).
Proof.
  assert (R : sequence_in_range (m_frames Stub.sample_session)).
  { repeat constructor; simpl; lia. }
  assert (O : is_Some (@file_of Stub.paths "sequence.pb")).
  { exists "sequence.pb". reflexivity. }
  split; [exact O|]. split; [exact R|].
  apply (@save_load_round_trip Stub.rational Stub.vision Wire.runtime Stub.paths
           Stub.sample_session Stub.unbound_session "sequence.pb" ∅).
  - exact O.
  - intros m Hm. change (fst (Wire.parse (Some (Wire.write_sequence m))) = m).
    rewrite (WireFacts.parse_write_sequence m Hm). reflexivity.
  - exact R.
Defined.

(** C2, as the code has it.  [load] never reports an error: whatever the
    file (absent, empty, truncated, malformed) it clears the sequence,
    ignores the parser's result, stores one frame for every frame the
    parser left in the message and returns normally.  For an absent or a
    zero-byte file, which a parser leaves as the empty message, the sequence
    ends up empty. *)
Theorem load_reports_no_error `{V : Vision} `{P : Protobuf} `{FS : Paths}
    (s : SequenceFaceLandmarksImpl) (filePath : string) (fs : file_store) :
  fst (ParseFromIstream None) = io.Sequence.empty ->
  fst (ParseFromIstream (Some [])) = io.Sequence.empty ->
  load filePath fs s =
  (Ok tt,
   set_frames
     (map load_frame
        (io.Sequence.frames (fst (ParseFromIstream (ifstream filePath fs)))))
     s) /\
  (ifstream filePath fs = None \/ ifstream filePath fs = Some [] ->
   load filePath fs s = (Ok tt, set_frames [] s)).
Proof.
  intros Habsent Hempty. split; [apply load_unfold|].
  intros [E|E]; rewrite load_unfold, E.
  - now rewrite Habsent.
  - now rewrite Hempty.
Qed.

Lemma load_reports_no_error_witness :
  fst (@ParseFromIstream Wire.runtime None) = io.Sequence.empty /\
  fst (@ParseFromIstream Wire.runtime (Some [])) = io.Sequence.empty /\
  @load Stub.rational Stub.vision Wire.runtime Stub.paths "absent.pb" ∅
    Stub.sample_session =
  (Ok tt,
   @set_frames Stub.rational Stub.vision
     (map load_frame
        (io.Sequence.frames
           (fst (@ParseFromIstream Wire.runtime
                   (@ifstream Stub.paths "absent.pb" ∅)))))
     Stub.sample_session) /\
  (@ifstream Stub.paths "absent.pb" ∅ = None \/
   @ifstream Stub.paths "absent.pb" ∅ = Some [] ->
   @load Stub.rational Stub.vision Wire.runtime Stub.paths "absent.pb" ∅
     Stub.sample_session
   = (Ok tt, @set_frames Stub.rational Stub.vision [] Stub.sample_session)).
Proof.
  split; [exact (proj1 WireFacts.parse_nothing)|].
  split; [exact (proj2 WireFacts.parse_nothing)|].
  apply (@load_reports_no_error Stub.rational Stub.vision Wire.runtime Stub.paths
           Stub.sample_session "absent.pb" ∅).
  - exact (proj1 WireFacts.parse_nothing).
  - exact (proj2 WireFacts.parse_nothing).
Defined.

(** C2, as stated, fails: loading a path at which there is no file, or a
    file of zero bytes, raises nothing; the call returns normally with the
    sequence emptied. *)
Lemma load_absent_file_raises_nothing :
  @ifstream Stub.paths "absent.pb" ∅ = None /\
  ~ (exists e, fst (@load Stub.rational Stub.vision Wire.runtime Stub.paths
                      "absent.pb" ∅ Stub.sample_session) = Throw e) /\
  @ifstream Stub.paths "empty.pb" {["empty.pb" := []]} = Some [] /\
  ~ (exists e, fst (@load Stub.rational Stub.vision Wire.runtime Stub.paths
                      "empty.pb" {["empty.pb" := []]} Stub.sample_session) = Throw e).
Proof.
  split; [reflexivity|]. split.
  { intros [e He]; rewrite load_unfold in He; discriminate He. }
  split.
  { unfold ifstream. simpl file_of. apply lookup_singleton_eq. }
  intros [e He]; rewrite load_unfold in He; discriminate He.
Qed.

(** * Further properties of the session object *)

Lemma keeps_ret {St A B} (proj : St -> B) (a : A) : keeps proj (ret (St := St) a).
Proof. intros s. reflexivity. Qed.

Lemma keeps_call {St A B} (proj : St -> B) (r : lib_result A) :
  keeps proj (call (St := St) r).
Proof. intros s. destruct r; reflexivity. Qed.

Lemma keeps_modify {St B} (proj : St -> B) (f : St -> St) :
  (forall s, proj (f s) = proj s) -> keeps proj (modify f).
Proof. intros Hf s. apply Hf. Qed.

Lemma keeps_bind {St A C B} (proj : St -> B) (m : M St A) (k : A -> M St C) :
  keeps proj m -> (forall a, keeps proj (k a)) -> keeps proj (bind m k).
Proof.
  intros Hm Hk s. unfold bind. specialize (Hm s).
  destruct (m s) as [[a|e|] s1]; simpl in *; try exact Hm.
  rewrite (Hk a s1). exact Hm.
Qed.

Lemma keeps_for_each {St B} (proj : St -> B) (idx : list nat)
      (body : nat -> M St unit) :
  (forall i, keeps proj (body i)) -> keeps proj (for_each idx body).
Proof.
  intros Hb. induction idx as [|i idx IH]; simpl.
  - apply keeps_ret.
  - apply keeps_bind; [apply Hb|intros _; exact IH].
Qed.

Lemma is_defined_bind {St A B} (m : M St A) (k : A -> M St B) s :
  is_defined (fst (m s)) ->
  (forall a s', is_defined (fst (k a s'))) ->
  is_defined (fst (bind m k s)).
Proof.
  intros Hm Hk. unfold bind. destruct (m s) as [[a|e|] s1]; simpl in *; auto.
Qed.

Lemma is_defined_call {St A} (r : lib_result A) (s : St) :
  is_defined (fst (call r s)).
Proof. destruct r; exact I. Qed.

Lemma is_defined_for_each {St} (idx : list nat) (body : nat -> M St unit) :
  List.Forall (fun i => forall s, is_defined (fst (body i s))) idx ->
  forall s, is_defined (fst (for_each idx body s)).
Proof.
  induction 1 as [|i idx Hi _ IH]; intros s; simpl.
  - exact I.
  - apply is_defined_bind; [apply Hi|intros _ s'; apply IH].
Qed.

Section SessionExtras.
Context `{V : Vision}.

Implicit Types (s : SequenceFaceLandmarksImpl) (frame : Mat pixels).

(** [extract_landmarks] changes the faces of the frame behind its reference
    and nothing else of it. *)
Lemma extract_keeps_dimensions scale detector pose_model pt frame :
  keeps (fun fl => (Frame.width fl, Frame.height fl))
        (extract_landmarks scale detector pose_model pt frame).
Proof.
  unfold extract_landmarks.
  apply keeps_bind.
  { destruct (f_neqb scale f_one); [apply keeps_call|apply keeps_ret]. }
  intros frame_scaled. apply keeps_bind; [apply keeps_call|].
  intros dlib_frame. apply keeps_bind; [apply keeps_call|].
  intros faces. apply keeps_bind; [apply keeps_modify; reflexivity|].
  intros _. apply keeps_for_each. intros i.
  destruct (faces !! i); [|intros fl; reflexivity].
  apply keeps_bind; [apply keeps_call|].
  intros shape. apply keeps_modify. reflexivity.
Qed.

(** Every index the loop of [extract_landmarks] uses is in range. *)
Lemma extract_is_defined scale detector pose_model pt frame fl :
  is_defined (fst (extract_landmarks scale detector pose_model pt frame fl)).
Proof.
  unfold extract_landmarks.
  apply is_defined_bind.
  { destruct (f_neqb scale f_one); [apply is_defined_call|exact I]. }
  intros frame_scaled fl1. apply is_defined_bind; [apply is_defined_call|].
  intros dlib_frame fl2. apply is_defined_bind; [apply is_defined_call|].
  intros faces fl3. apply is_defined_bind; [exact I|].
  intros _ fl4. unfold for_below. apply is_defined_for_each.
  apply List.Forall_forall. intros i Hi. apply in_seq in Hi. intros fl5.
  destruct (lookup_lt_is_Some_2 faces i ltac:(lia)) as [r Hr]. rewrite Hr.
  apply is_defined_bind; [apply is_defined_call|]. intros; exact I.
Qed.

(** [addFrame] on a bound session, in one step: the frame pushed for the
    image is run through [extract_landmarks] where it sits, at the back of
    the sequence, and stays there whatever the outcome. *)
Lemma addFrame_bound_unfold s frame :
  m_model_path s <> "" ->
  addFrame frame s =
  (match fst (extract_landmarks (m_frame_scale s) (m_detector s) (m_pose_model s)
                (if channels frame =? 3 then bgr_pixel else unsigned_char) frame
                (Frame.mk [] (cols frame) (rows frame))) with
   | Ok _ =>
       Ok (snd (extract_landmarks (m_frame_scale s) (m_detector s) (m_pose_model s)
                  (if channels frame =? 3 then bgr_pixel else unsigned_char) frame
                  (Frame.mk [] (cols frame) (rows frame))))
   | Throw e => Throw e
   | Undefined => Undefined
   end,
   set_frames
     (m_frames s ++
        [snd (extract_landmarks (m_frame_scale s) (m_detector s) (m_pose_model s)
                (if channels frame =? 3 then bgr_pixel else unsigned_char) frame
                (Frame.mk [] (cols frame) (rows frame)))]) s).
Proof.
  intros Hp. unfold addFrame.
  rewrite (bind_ok get _ s s s) by reflexivity.
  destruct (decide (m_model_path s = "")) as [E|_]; [contradiction|].
  unfold bind at 1. unfold modify at 1.
  assert (Hext : forall pt,
    on_back (extract_landmarks (m_frame_scale s) (m_detector s) (m_pose_model s) pt frame)
      (set_frames (m_frames s ++ [Frame.mk [] (cols frame) (rows frame)]) s)
    = (fst (extract_landmarks (m_frame_scale s) (m_detector s) (m_pose_model s) pt frame
              (Frame.mk [] (cols frame) (rows frame))),
       set_frames
         (m_frames s ++
            [snd (extract_landmarks (m_frame_scale s) (m_detector s) (m_pose_model s)
                    pt frame (Frame.mk [] (cols frame) (rows frame)))]) s)).
  { intros pt. unfold on_back. simpl m_frames. rewrite unsnoc_snoc.
    destruct (extract_landmarks (m_frame_scale s) (m_detector s) (m_pose_model s) pt
                frame (Frame.mk [] (cols frame) (rows frame))) as [r fr].
    reflexivity. }
  unfold bind.
  replace ((if channels frame =? 3
            then on_back (extract_landmarks (m_frame_scale s) (m_detector s)
                            (m_pose_model s) bgr_pixel frame)
            else on_back (extract_landmarks (m_frame_scale s) (m_detector s)
                            (m_pose_model s) unsigned_char frame))
             (set_frames (m_frames s ++ [Frame.mk [] (cols frame) (rows frame)]) s))
    with (on_back (extract_landmarks (m_frame_scale s) (m_detector s) (m_pose_model s)
                     (if channels frame =? 3 then bgr_pixel else unsigned_char) frame)
            (set_frames (m_frames s ++ [Frame.mk [] (cols frame) (rows frame)]) s))
    by (destruct (channels frame =? 3); reflexivity).
  rewrite Hext.
  destruct (extract_landmarks (m_frame_scale s) (m_detector s) (m_pose_model s)
              (if channels frame =? 3 then bgr_pixel else unsigned_char) frame
              (Frame.mk [] (cols frame) (rows frame))) as [[[]|e|] fr];
    simpl fst; simpl snd; try reflexivity.
  unfold on_back, get. simpl m_frames. rewrite unsnoc_snoc. reflexivity.
Qed.

Lemma vec_resize_nil {A} (n : nat) (d : A) : vec_resize n d [] = repeat d n.
Proof.
  unfold vec_resize. rewrite firstn_nil. simpl. now rewrite Nat.sub_0_r.
Qed.

Lemma skipn_repeat {A} (d : A) (n m : nat) :
  skipn n (repeat d m) = repeat d (m - n).
Proof.
  revert m. induction n as [|n IH]; intros m.
  - now rewrite Nat.sub_0_r.
  - destruct m as [|m]; [reflexivity|]. simpl. apply IH.
Qed.

(** The loop of [extract_landmarks] when the predictor raises on the face
    after [pre]: the faces of [pre] are filled, the others are as [resize]
    left them. *)
Lemma extract_loop_throws scale pose_model dlib_frame w h r post what :
  predict pose_model dlib_frame r = LibThrow what ->
  forall (pre : list rectangle.t) (shapes : list (list dpoint.t))
         (seen : list rectangle.t) (filled rest : list Face.t),
    length filled = length seen ->
    length rest = length (pre ++ r :: post) ->
    Forall2 (fun r sh => predict pose_model dlib_frame r = LibOk sh) pre shapes ->
    for_each (seq (length seen) (length (pre ++ r :: post)))
      (fun i =>
         match (seen ++ pre ++ r :: post) !! i with
         | None => undefined
         | Some dlib_face =>
             shape <- call (predict pose_model dlib_frame dlib_face) ;;
             modify (fun fl =>
               set_faces (<[i := scaled_face scale dlib_face shape]> (Frame.faces fl)) fl)
         end)
      (Frame.mk (filled ++ rest) w h)
    = (Throw (library_error what),
       Frame.mk (filled ++ zip_with (scaled_face scale) pre shapes
                        ++ skipn (length pre) rest) w h).
Proof.
  intros Hthrow.
  induction pre as [|r0 pre IH]; intros shapes seen filled rest Hf Hr Hp.
  - inversion Hp; subst. simpl app. simpl length. simpl seq. simpl for_each.
    apply bind_throw.
    rewrite lookup_app_r by lia. rewrite Nat.sub_diag.
    change ((r :: post) !! 0%nat) with (Some r). cbv beta iota.
    rewrite Hthrow. reflexivity.
  - inversion Hp as [|r' sh pre' shapes' Hsh Hrest]; subst.
    destruct rest as [|old rest]; [discriminate|].
    simpl app. simpl length. simpl seq. simpl for_each.
    erewrite bind_ok; cycle 1.
    { rewrite lookup_app_r by lia. rewrite Nat.sub_diag.
      change ((r0 :: pre ++ r :: post) !! 0%nat) with (Some r0). cbv beta iota.
      rewrite Hsh. reflexivity. }
    unfold set_faces. simpl Frame.faces. simpl Frame.width. simpl Frame.height.
    rewrite <- Hf.
    rewrite insert_app_r_alt by lia. rewrite Nat.sub_diag. simpl.
    specialize (IH shapes' (seen ++ [r0]) (filled ++ [scaled_face scale r0 sh]) rest).
    rewrite (length_app seen [r0]), (length_app filled [scaled_face scale r0 sh]) in IH.
    simpl length in IH.
    rewrite <- Hf in IH. rewrite Nat.add_1_r in IH.
    rewrite <- !app_assoc in IH. simpl app in IH.
    apply IH; [reflexivity|simpl in Hr; lia|assumption].
Qed.

Lemma extract_landmarks_predictor_throws scale detector pose_model pt frame w h
      frame_scaled dlib_frame pre r post shapes what :
  (if f_neqb scale f_one then cv_resize frame scale scale else LibOk frame)
    = LibOk frame_scaled ->
  cv_image pt frame_scaled = LibOk dlib_frame ->
  detect detector dlib_frame = LibOk (pre ++ r :: post) ->
  Forall2 (fun r sh => predict pose_model dlib_frame r = LibOk sh) pre shapes ->
  predict pose_model dlib_frame r = LibThrow what ->
  extract_landmarks scale detector pose_model pt frame (Frame.mk [] w h)
  = (Throw (library_error what),
     Frame.mk (zip_with (scaled_face scale) pre shapes
                 ++ repeat Face.default (S (length post))) w h).
Proof.
  intros Hres Himg Hdet Hpred Hthrow. unfold extract_landmarks.
  rewrite (bind_ok _ _ _ frame_scaled (Frame.mk [] w h)).
  2:{ destruct (f_neqb scale f_one); [rewrite Hres|injection Hres as ->]; reflexivity. }
  rewrite Himg. rewrite (bind_ok _ _ _ dlib_frame (Frame.mk [] w h)) by reflexivity.
  rewrite Hdet. rewrite (bind_ok _ _ _ (pre ++ r :: post) (Frame.mk [] w h)) by reflexivity.
  unfold bind at 1. unfold modify at 1. simpl Frame.faces.
  rewrite vec_resize_nil. unfold for_below.
  etransitivity.
  - apply (extract_loop_throws scale pose_model dlib_frame w h r post what Hthrow
             pre shapes [] [] (repeat Face.default (length (pre ++ r :: post))));
      [reflexivity|apply repeat_length|assumption].
  - simpl app. f_equal. f_equal. f_equal.
    rewrite length_app. simpl length.
    rewrite skipn_repeat.
    replace (length pre + S (length post) - length pre)%nat with (S (length post)) by lia.
    reflexivity.
Qed.

End SessionExtras.

Section SessionExtras2.
Context `{V : Vision}.

Implicit Types (s : SequenceFaceLandmarksImpl) (frame : Mat pixels).

(** [addFrame] on a bound session looks at the frames already stored only
    to append to them. *)
Lemma addFrame_on_other_frames s frame (others : list Frame.t) :
  m_model_path s <> "" ->
  exists r fr,
    Frame.width fr = cols frame /\ Frame.height fr = rows frame /\
    addFrame frame s = (r, set_frames (m_frames s ++ [fr]) s) /\
    addFrame frame (set_frames others s) = (r, set_frames (others ++ [fr]) s).
Proof.
  intros Hp.
  pose proof (extract_keeps_dimensions (m_frame_scale s) (m_detector s) (m_pose_model s)
                (if channels frame =? 3 then bgr_pixel else unsigned_char) frame
                (Frame.mk [] (cols frame) (rows frame))) as K.
  simpl in K. injection K as Kw Kh.
  eexists. eexists. split; [exact Kw|]. split; [exact Kh|]. split.
  - apply (addFrame_bound_unfold s frame Hp).
  - apply (addFrame_bound_unfold (set_frames others s) frame Hp).
Qed.

(** [extract_landmarks] when the resize or the detector raises: the
    exception propagates and the frame behind the reference is as it was. *)
Lemma extract_landmarks_early_failure scale detector pose_model pt frame fl what :
  (if f_neqb scale f_one then cv_resize frame scale scale else LibOk frame)
    = LibThrow what \/
  (exists frame_scaled dlib_frame,
     (if f_neqb scale f_one then cv_resize frame scale scale else LibOk frame)
       = LibOk frame_scaled /\
     cv_image pt frame_scaled = LibOk dlib_frame /\
     detect detector dlib_frame = LibThrow what) ->
  extract_landmarks scale detector pose_model pt frame fl
  = (Throw (library_error what), fl).
Proof.
  intros [Hres|(frame_scaled & dlib_frame & Hres & Himg & Hdet)];
    unfold extract_landmarks.
  - apply bind_throw.
    destruct (f_neqb scale f_one); [rewrite Hres; reflexivity|discriminate Hres].
  - rewrite (bind_ok _ _ fl frame_scaled fl).
    2:{ destruct (f_neqb scale f_one); [rewrite Hres|injection Hres as ->]; reflexivity. }
    rewrite Himg. rewrite (bind_ok _ _ fl dlib_frame fl) by reflexivity.
    rewrite Hdet. reflexivity.
Qed.

End SessionExtras2.

(** C5. With a model bound, an image whose channel count is neither 1 nor 3
    is rejected before any detection work.  [addFrame] has no check of its
    own: it sends such an image down the single-channel path, where the
    constructor of [dlib::cv_image<unsigned char>] asserts the channel
    count and throws.  The exception comes from that wrapper, or from the
    resize before it, so it leaves [addFrame] before the detector is
    called; the frame pushed just before stays in the sequence.  The
    wrapper's assertion and the resize keeping the channel count are the
    contracts of the two libraries. *)
Theorem addFrame_rejects_other_channel_counts `{V : Vision}
    (s : SequenceFaceLandmarksImpl) (frame : Mat pixels) :
  (forall pt img, channels img <> pixel_channels pt ->
                  exists what, cv_image pt img = LibThrow what) ->
  (forall img fx fy img', cv_resize img fx fy = LibOk img' ->
                          channels img' = channels img) ->
  m_model_path s <> "" ->
  channels frame <> 1 -> channels frame <> 3 ->
  exists what,
    ((if f_neqb (m_frame_scale s) f_one
      then cv_resize frame (m_frame_scale s) (m_frame_scale s)
      else LibOk frame) = LibThrow what \/
     exists frame_scaled,
       (if f_neqb (m_frame_scale s) f_one
        then cv_resize frame (m_frame_scale s) (m_frame_scale s)
        else LibOk frame) = LibOk frame_scaled /\
       cv_image unsigned_char frame_scaled = LibThrow what) /\
    addFrame frame s =
    (Throw (library_error what),
     set_frames (m_frames s ++ [Frame.mk [] (cols frame) (rows frame)]) s).
Proof.
  intros Hwrap Hresize Hp H1 H3.
  destruct (Z.eqb_spec (channels frame) 3) as [E|_]; [contradiction|].
  destruct (if f_neqb (m_frame_scale s) f_one
            then cv_resize frame (m_frame_scale s) (m_frame_scale s)
            else LibOk frame) as [frame_scaled|what] eqn:Hres.
  - assert (Hc : channels frame_scaled = channels frame).
    { destruct (f_neqb (m_frame_scale s) f_one).
      - exact (Hresize _ _ _ _ Hres).
      - now injection Hres as <-. }
    destruct (Hwrap unsigned_char frame_scaled) as [what Hw].
    { rewrite Hc. exact H1. }
    exists what. split.
    + right. exists frame_scaled. split; [reflexivity|exact Hw].
    + apply (addFrame_wrapper_throws s frame frame_scaled what Hp Hres).
      destruct (Z.eqb_spec (channels frame) 3) as [E|_]; [contradiction|exact Hw].
  - exists what. split; [left; reflexivity|].
    rewrite (addFrame_bound_unfold s frame Hp).
    rewrite (extract_landmarks_early_failure _ _ _ _ _ _ what (or_introl Hres)).
    reflexivity.
Qed.

Lemma addFrame_rejects_other_channel_counts_witness :
  exists what,
    ((if @f_neqb Stub.rational (m_frame_scale Stub.bound_session) f_one
      then @cv_resize Stub.rational Stub.vision (Stub.image 640 480 4)
             (m_frame_scale Stub.bound_session) (m_frame_scale Stub.bound_session)
      else LibOk (Stub.image 640 480 4)) = LibThrow what \/
     exists frame_scaled,
       (if @f_neqb Stub.rational (m_frame_scale Stub.bound_session) f_one
        then @cv_resize Stub.rational Stub.vision (Stub.image 640 480 4)
               (m_frame_scale Stub.bound_session) (m_frame_scale Stub.bound_session)
        else LibOk (Stub.image 640 480 4)) = LibOk frame_scaled /\
       @cv_image Stub.rational Stub.vision unsigned_char frame_scaled = LibThrow what) /\
    @addFrame Stub.rational Stub.vision (Stub.image 640 480 4) Stub.bound_session =
    (Throw (library_error what),
     set_frames (m_frames Stub.bound_session ++ [Frame.mk [] 640 480]) Stub.bound_session).
Proof.
  apply (@addFrame_rejects_other_channel_counts Stub.rational Stub.vision
           Stub.bound_session (Stub.image 640 480 4)).
  - intros pt img Hc. simpl. unfold Stub.stub_cv_image.
    destruct (_ =? _) eqn:E; [apply Z.eqb_eq in E; contradiction|].
    eexists. reflexivity.
  - intros img fx fy img' Hr. simpl in Hr. unfold Stub.stub_resize in Hr.
    injection Hr as <-. reflexivity.
  - vm_compute. discriminate.
  - vm_compute. discriminate.
  - vm_compute. discriminate.
Defined.

(** ** The arithmetic of the rescaling *)

Module Binary32Facts.
Import Binary32.

























End Binary32Facts.




(** X1. The outcomes of [addFrame].  It returns a frame only on a bound
    session, and the frame carries the image's width and height; the one
    [runtime_error] it throws is the missing-model error, and only on an
    unbound session; any other exception comes from a library, on a bound
    session; and it never makes an out-of-range access. *)
Theorem addFrame_outcomes `{V : Vision}
    (s : SequenceFaceLandmarksImpl) (frame : Mat pixels) :
  match fst (addFrame frame s) with
  | Ok fr => m_model_path s <> "" /\
             Frame.width fr = cols frame /\ Frame.height fr = rows frame
  | Throw (runtime_error what) => m_model_path s = "" /\ runtime_error what = model_not_set
  | Throw (library_error _) => m_model_path s <> ""
  | Undefined => False
  end.
Proof.
  destruct (decide (m_model_path s = "")) as [E|N].
  - rewrite (addFrame_unbound_throws s frame E). simpl. split; [exact E|reflexivity].
  - rewrite (addFrame_bound_unfold s frame N). simpl fst.
    pose proof (extract_is_defined (m_frame_scale s) (m_detector s) (m_pose_model s)
                  (if channels frame =? 3 then bgr_pixel else unsigned_char) frame
                  (Frame.mk [] (cols frame) (rows frame))) as D.
    pose proof (extract_no_runtime_error (m_frame_scale s) (m_detector s) (m_pose_model s)
                  (if channels frame =? 3 then bgr_pixel else unsigned_char) frame
                  (Frame.mk [] (cols frame) (rows frame))) as R.
    pose proof (extract_keeps_dimensions (m_frame_scale s) (m_detector s) (m_pose_model s)
                  (if channels frame =? 3 then bgr_pixel else unsigned_char) frame
                  (Frame.mk [] (cols frame) (rows frame))) as K.
    destruct (extract_landmarks (m_frame_scale s) (m_detector s) (m_pose_model s)
                (if channels frame =? 3 then bgr_pixel else unsigned_char) frame
                (Frame.mk [] (cols frame) (rows frame))) as [[[]|[what|what]|] fr];
      simpl in *.
    + injection K as Kw Kh. split; [exact N|]. split; assumption.
    + contradiction.
    + exact N.
    + contradiction.
Qed.

(** X2. On a bound session [addFrame] appends exactly one frame, with the
    image's width and height, whatever its outcome: also when a library
    raises, the sequence has grown by one and nothing else of the session
    has changed. *)
Theorem addFrame_appends_one_frame `{V : Vision}
    (s : SequenceFaceLandmarksImpl) (frame : Mat pixels) :
  m_model_path s <> "" ->
  exists fr,
    snd (addFrame frame s) = set_frames (m_frames s ++ [fr]) s /\
    Frame.width fr = cols frame /\ Frame.height fr = rows frame /\
    size (snd (addFrame frame s)) = S (size s).
Proof.
  intros Hp.
  destruct (addFrame_on_other_frames s frame [] Hp) as (r & fr & Hw & Hh & E & _).
  exists fr. rewrite E. simpl snd. split; [reflexivity|]. split; [exact Hw|].
  split; [exact Hh|]. unfold size. simpl m_frames. rewrite length_app. simpl. lia.
Qed.

Lemma addFrame_appends_one_frame_witness :
  m_model_path Faulty.bound_session <> "" /\
  exists fr,
    snd (@addFrame Stub.rational Faulty.vision (Stub.image 640 480 3) Faulty.bound_session)
    = @set_frames Stub.rational Faulty.vision
        (m_frames Faulty.bound_session ++ [fr]) Faulty.bound_session /\
    Frame.width fr = cols (Stub.image 640 480 3) /\
    Frame.height fr = rows (Stub.image 640 480 3) /\
    @size Stub.rational Faulty.vision
      (snd (@addFrame Stub.rational Faulty.vision (Stub.image 640 480 3)
              Faulty.bound_session))
    = S (@size Stub.rational Faulty.vision Faulty.bound_session).
Proof.
  split; [discriminate|].
  apply (@addFrame_appends_one_frame Stub.rational Faulty.vision
           Faulty.bound_session (Stub.image 640 480 3)).
  discriminate.
Defined.

(** X3. What [addFrame] returns for an image does not depend on the frames
    already in the sequence: on a bound session the outcome and the
    appended frame are the same after the stored frames are replaced by any
    others. *)
Theorem addFrame_ignores_earlier_frames `{V : Vision}
    (s : SequenceFaceLandmarksImpl) (frame : Mat pixels) (others : list Frame.t) :
  m_model_path s <> "" ->
  fst (addFrame frame (set_frames others s)) = fst (addFrame frame s) /\
  exists fr,
    snd (addFrame frame s) = set_frames (m_frames s ++ [fr]) s /\
    snd (addFrame frame (set_frames others s)) = set_frames (others ++ [fr]) s.
Proof.
  intros Hp.
  destruct (addFrame_on_other_frames s frame others Hp) as (r & fr & _ & _ & E1 & E2).
  rewrite E1, E2. split; [reflexivity|]. exists fr. split; reflexivity.
Qed.

Lemma addFrame_ignores_earlier_frames_witness :
  m_model_path Stub.bound_session <> "" /\
  fst (@addFrame Stub.rational Stub.vision (Stub.image 640 480 3)
         (@set_frames Stub.rational Stub.vision Stub.sample_frames Stub.bound_session))
  = fst (@addFrame Stub.rational Stub.vision (Stub.image 640 480 3) Stub.bound_session) /\
  exists fr,
    snd (@addFrame Stub.rational Stub.vision (Stub.image 640 480 3) Stub.bound_session)
    = @set_frames Stub.rational Stub.vision
        (m_frames Stub.bound_session ++ [fr]) Stub.bound_session /\
    snd (@addFrame Stub.rational Stub.vision (Stub.image 640 480 3)
           (@set_frames Stub.rational Stub.vision Stub.sample_frames Stub.bound_session))
    = @set_frames Stub.rational Stub.vision (Stub.sample_frames ++ [fr]) Stub.bound_session.
Proof.
  split; [discriminate|].
  apply (@addFrame_ignores_earlier_frames Stub.rational Stub.vision
           Stub.bound_session (Stub.image 640 480 3) Stub.sample_frames).
  discriminate.
Defined.

(** X4. A successful [addFrame] and the accessors.  When every collaborator
    returns, the frame [addFrame] returns is the one [operator[]] gives at
    the old [size()], the frames stored before keep their indices, and the
    new frame has one face per detected box, each with as many landmarks as
    the predictor gave parts. *)
Theorem addFrame_returns_last_frame `{V : Vision}
    (s : SequenceFaceLandmarksImpl) (frame frame_scaled : Mat pixels)
    (dlib_frame : dlib_image) (rects : list rectangle.t)
    (shapes : list (list dpoint.t)) :
  m_model_path s <> "" ->
  (if f_neqb (m_frame_scale s) f_one
   then cv_resize frame (m_frame_scale s) (m_frame_scale s)
   else LibOk frame) = LibOk frame_scaled ->
  cv_image (if channels frame =? 3 then bgr_pixel else unsigned_char) frame_scaled
    = LibOk dlib_frame ->
  detect (m_detector s) dlib_frame = LibOk rects ->
  Forall2 (fun r sh => predict (m_pose_model s) dlib_frame r = LibOk sh) rects shapes ->
  exists fr,
    fst (addFrame frame s) = Ok fr /\
    operator_index (size s) (snd (addFrame frame s)) = (Ok fr, snd (addFrame frame s)) /\
    getSequence (snd (addFrame frame s)) = getSequence s ++ [fr] /\
    (forall i, (i < size s)%nat ->
               getSequence (snd (addFrame frame s)) !! i = getSequence s !! i) /\
    length (Frame.faces fr) = length rects /\
    Forall2 (fun face sh => length (Face.landmarks face) = length sh)
            (Frame.faces fr) shapes.
Proof.
  intros Hp Hres Himg Hdet Hpred.
  pose proof (addFrame_ok s frame frame_scaled dlib_frame rects shapes
                Hp Hres Himg Hdet Hpred) as E.
  cbv zeta in E. eexists. rewrite E. simpl fst. simpl snd.
  split; [reflexivity|]. split.
  { unfold operator_index. unfold bind, get. unfold size.
    change (m_frames (set_frames ?l s)) with l.
    rewrite lookup_app_r by lia. rewrite Nat.sub_diag. reflexivity. }
  split; [reflexivity|]. split.
  { intros i Hi. unfold getSequence. change (m_frames (set_frames ?l s)) with l.
    apply lookup_app_l. exact Hi. }
  simpl Frame.faces.
  assert (Hlen : length rects = length shapes) by (eapply Forall2_length; exact Hpred).
  split.
  - rewrite length_zip_with. lia.
  - clear E Hdet. revert shapes Hpred Hlen.
    induction rects as [|r rects IH]; intros [|sh shapes] Hpred Hlen;
      try discriminate.
    + constructor.
    + change (zip_with (scaled_face (m_frame_scale s)) (r :: rects) (sh :: shapes))
        with (scaled_face (m_frame_scale s) r sh
              :: zip_with (scaled_face (m_frame_scale s)) rects shapes).
      constructor.
      * unfold scaled_face, dlib_obj_to_points. simpl Face.landmarks.
        now rewrite !length_map.
      * apply IH; [now inversion Hpred|simpl in Hlen; lia].
Qed.

Lemma addFrame_returns_last_frame_witness :
  exists fr,
    fst (@addFrame Stub.rational Stub.vision (Stub.image 640 480 3) Stub.sample_session)
    = Ok fr /\
    @operator_index Stub.rational Stub.vision
      (@size Stub.rational Stub.vision Stub.sample_session)
      (snd (@addFrame Stub.rational Stub.vision (Stub.image 640 480 3)
              Stub.sample_session))
    = (Ok fr, snd (@addFrame Stub.rational Stub.vision (Stub.image 640 480 3)
                     Stub.sample_session)) /\
    @getSequence Stub.rational Stub.vision
      (snd (@addFrame Stub.rational Stub.vision (Stub.image 640 480 3)
              Stub.sample_session))
    = @getSequence Stub.rational Stub.vision Stub.sample_session ++ [fr] /\
    (forall i, (i < @size Stub.rational Stub.vision Stub.sample_session)%nat ->
       @getSequence Stub.rational Stub.vision
         (snd (@addFrame Stub.rational Stub.vision (Stub.image 640 480 3)
                 Stub.sample_session)) !! i
       = @getSequence Stub.rational Stub.vision Stub.sample_session !! i) /\
    length (Frame.faces fr) = length [rectangle.mk 80 60 160 120] /\
    Forall2 (fun face sh => length (Face.landmarks face) = length sh)
            (Frame.faces fr)
            [map (fun o => dpoint.mk (80 + dpoint.x o) (60 + dpoint.y o))
                 (Stub.diagonal 68)].
Proof.
  apply (@addFrame_returns_last_frame Stub.rational Stub.vision
           Stub.sample_session (Stub.image 640 480 3) (Stub.image 320 240 3)
           (Stub.image 320 240 3) [rectangle.mk 80 60 160 120]
           [map (fun o => dpoint.mk (80 + dpoint.x o) (60 + dpoint.y o))
                (Stub.diagonal 68)]).
  - discriminate.
  - reflexivity.
  - reflexivity.
  - reflexivity.
  - constructor; [reflexivity|constructor].
Defined.

(** X5. An image in which the detector finds no face is not an error: on a
    bound session [addFrame] returns and appends a frame with the image's
    width and height and no face, without consulting the predictor. *)
Theorem addFrame_no_detections `{V : Vision}
    (s : SequenceFaceLandmarksImpl) (frame frame_scaled : Mat pixels)
    (dlib_frame : dlib_image) :
  m_model_path s <> "" ->
  (if f_neqb (m_frame_scale s) f_one
   then cv_resize frame (m_frame_scale s) (m_frame_scale s)
   else LibOk frame) = LibOk frame_scaled ->
  cv_image (if channels frame =? 3 then bgr_pixel else unsigned_char) frame_scaled
    = LibOk dlib_frame ->
  detect (m_detector s) dlib_frame = LibOk [] ->
  addFrame frame s =
  (Ok (Frame.mk [] (cols frame) (rows frame)),
   set_frames (m_frames s ++ [Frame.mk [] (cols frame) (rows frame)]) s).
Proof.
  intros Hp Hres Himg Hdet.
  apply (addFrame_ok s frame frame_scaled dlib_frame [] [] Hp Hres Himg Hdet).
  constructor.
Qed.

Lemma addFrame_no_detections_witness :
  @addFrame Stub.rational Fixtures.blind_vision (Stub.image 640 480 1)
    Fixtures.blind_session =
  (Ok (Frame.mk [] (cols (Stub.image 640 480 1)) (rows (Stub.image 640 480 1))),
   @set_frames Stub.rational Fixtures.blind_vision
     (m_frames Fixtures.blind_session
        ++ [Frame.mk [] (cols (Stub.image 640 480 1)) (rows (Stub.image 640 480 1))])
     Fixtures.blind_session).
Proof.
  apply (@addFrame_no_detections Stub.rational Fixtures.blind_vision
           Fixtures.blind_session (Stub.image 640 480 1) (Stub.image 320 240 1)
           (Stub.image 320 240 1)).
  - discriminate.
  - reflexivity.
  - reflexivity.
  - reflexivity.
Defined.

(** X6. When the predictor raises on one of the detected faces, [addFrame]
    propagates the exception and leaves a partly filled frame at the back of
    the sequence: the faces before the failing one hold their rescaled box
    and landmarks, the failing one and those after it are default faces. *)
Theorem addFrame_predictor_throws `{V : Vision}
    (s : SequenceFaceLandmarksImpl) (frame frame_scaled : Mat pixels)
    (dlib_frame : dlib_image) (pre post : list rectangle.t) (r : rectangle.t)
    (shapes : list (list dpoint.t)) (what : string) :
  m_model_path s <> "" ->
  (if f_neqb (m_frame_scale s) f_one
   then cv_resize frame (m_frame_scale s) (m_frame_scale s)
   else LibOk frame) = LibOk frame_scaled ->
  cv_image (if channels frame =? 3 then bgr_pixel else unsigned_char) frame_scaled
    = LibOk dlib_frame ->
  detect (m_detector s) dlib_frame = LibOk (pre ++ r :: post) ->
  Forall2 (fun r sh => predict (m_pose_model s) dlib_frame r = LibOk sh) pre shapes ->
  predict (m_pose_model s) dlib_frame r = LibThrow what ->
  addFrame frame s =
  (Throw (library_error what),
   set_frames
     (m_frames s ++
        [Frame.mk (zip_with (scaled_face (m_frame_scale s)) pre shapes
                     ++ repeat Face.default (S (length post)))
                  (cols frame) (rows frame)]) s).
Proof.
  intros Hp Hres Himg Hdet Hpred Hthrow.
  rewrite (addFrame_bound_unfold s frame Hp).
  rewrite (extract_landmarks_predictor_throws _ _ _ _ _ _ _ frame_scaled dlib_frame
             pre r post shapes what Hres Himg Hdet Hpred Hthrow).
  reflexivity.
Qed.

Lemma addFrame_predictor_throws_witness :
  @addFrame Stub.rational Faulty.vision (Stub.image 640 480 3) Faulty.bound_session =
  (Throw (library_error "shape prediction failed"),
   @set_frames Stub.rational Faulty.vision
     (m_frames Faulty.bound_session ++
        [Frame.mk
           (zip_with (@scaled_face Stub.rational (1 # 2)%Q)
              [rectangle.mk 10 10 50 50]
              [map (fun o => dpoint.mk (10 + dpoint.x o) (10 + dpoint.y o))
                 (Stub.diagonal 5)]
            ++ repeat Face.default (S (length [rectangle.mk 300 10 50 50])))
           (cols (Stub.image 640 480 3)) (rows (Stub.image 640 480 3))])
     Faulty.bound_session).
Proof.
  apply (@addFrame_predictor_throws Stub.rational Faulty.vision
           Faulty.bound_session (Stub.image 640 480 3) (Stub.image 320 240 3)
           (Stub.image 320 240 3) [rectangle.mk 10 10 50 50]
           [rectangle.mk 300 10 50 50] (rectangle.mk 200 10 50 50)
           [map (fun o => dpoint.mk (10 + dpoint.x o) (10 + dpoint.y o))
                (Stub.diagonal 5)]
           "shape prediction failed").
  - discriminate.
  - reflexivity.
  - reflexivity.
  - reflexivity.
  - constructor; [reflexivity|constructor].
  - reflexivity.
Defined.

(** X7. When the resize or the detector raises, [addFrame] on a bound
    session propagates the exception after the push: the sequence ends with
    a frame that has the image's width and height and no face. *)
Theorem addFrame_early_failure `{V : Vision}
    (s : SequenceFaceLandmarksImpl) (frame : Mat pixels) (what : string) :
  m_model_path s <> "" ->
  (if f_neqb (m_frame_scale s) f_one
   then cv_resize frame (m_frame_scale s) (m_frame_scale s)
   else LibOk frame) = LibThrow what \/
  (exists frame_scaled dlib_frame,
     (if f_neqb (m_frame_scale s) f_one
      then cv_resize frame (m_frame_scale s) (m_frame_scale s)
      else LibOk frame) = LibOk frame_scaled /\
     cv_image (if channels frame =? 3 then bgr_pixel else unsigned_char) frame_scaled
       = LibOk dlib_frame /\
     detect (m_detector s) dlib_frame = LibThrow what) ->
  addFrame frame s =
  (Throw (library_error what),
   set_frames (m_frames s ++ [Frame.mk [] (cols frame) (rows frame)]) s).
Proof.
  intros Hp Hfail.
  rewrite (addFrame_bound_unfold s frame Hp).
  rewrite (extract_landmarks_early_failure _ _ _ _ _ _ what Hfail).
  reflexivity.
Qed.

Lemma addFrame_early_failure_witness :
  @addFrame Stub.rational Faulty.vision (Stub.image 64 64 3) Faulty.bound_session =
  (Throw (library_error "image too small"),
   @set_frames Stub.rational Faulty.vision
     (m_frames Faulty.bound_session
        ++ [Frame.mk [] (cols (Stub.image 64 64 3)) (rows (Stub.image 64 64 3))])
     Faulty.bound_session).
Proof.
  apply (@addFrame_early_failure Stub.rational Faulty.vision
           Faulty.bound_session (Stub.image 64 64 3) "image too small").
  - discriminate.
  - right. exists (Stub.image 32 32 3), (Stub.image 32 32 3).
    split; [reflexivity|]. split; reflexivity.
Defined.

(** X8. A session whose scale compares equal to [1.0f] never calls the
    resize: the image itself is wrapped and given to the detector, and
    [addFrame] succeeds whenever the wrapper, the detector and the
    predictor return, whatever the resize would do. *)
Theorem addFrame_full_scale_skips_resize `{V : Vision}
    (s : SequenceFaceLandmarksImpl) (frame : Mat pixels)
    (dlib_frame : dlib_image) (rects : list rectangle.t)
    (shapes : list (list dpoint.t)) :
  m_model_path s <> "" ->
  f_neqb (m_frame_scale s) f_one = false ->
  cv_image (if channels frame =? 3 then bgr_pixel else unsigned_char) frame
    = LibOk dlib_frame ->
  detect (m_detector s) dlib_frame = LibOk rects ->
  Forall2 (fun r sh => predict (m_pose_model s) dlib_frame r = LibOk sh) rects shapes ->
  addFrame frame s =
  (Ok (Frame.mk (zip_with (scaled_face (m_frame_scale s)) rects shapes)
                (cols frame) (rows frame)),
   set_frames (m_frames s ++
                 [Frame.mk (zip_with (scaled_face (m_frame_scale s)) rects shapes)
                           (cols frame) (rows frame)]) s).
Proof.
  intros Hp Hone Himg Hdet Hpred.
  apply (addFrame_ok s frame frame dlib_frame rects shapes); try assumption.
  now rewrite Hone.
Qed.

Lemma addFrame_full_scale_skips_resize_witness :
  @addFrame Stub.rational Stub.vision (Stub.image 640 480 1) Fixtures.full_scale_session =
  (Ok (Frame.mk
         (zip_with (@scaled_face Stub.rational (m_frame_scale Fixtures.full_scale_session))
            [rectangle.mk 160 120 320 240]
            [map (fun o => dpoint.mk (160 + dpoint.x o) (120 + dpoint.y o))
               (Stub.diagonal 68)])
         (cols (Stub.image 640 480 1)) (rows (Stub.image 640 480 1))),
   @set_frames Stub.rational Stub.vision
     (m_frames Fixtures.full_scale_session ++
        [Frame.mk
           (zip_with (@scaled_face Stub.rational (m_frame_scale Fixtures.full_scale_session))
              [rectangle.mk 160 120 320 240]
              [map (fun o => dpoint.mk (160 + dpoint.x o) (120 + dpoint.y o))
                 (Stub.diagonal 68)])
           (cols (Stub.image 640 480 1)) (rows (Stub.image 640 480 1))])
     Fixtures.full_scale_session).
Proof.
  apply (@addFrame_full_scale_skips_resize Stub.rational Stub.vision
           Fixtures.full_scale_session (Stub.image 640 480 1) (Stub.image 640 480 1)).
  - discriminate.
  - reflexivity.
  - reflexivity.
  - reflexivity.
  - constructor; [reflexivity|constructor].
Defined.

(** X9. [setModel] with a non-empty path whose model file deserialises
    stores the path, a fresh frontal-face detector and the deserialised
    predictor, and leaves the frames and the scale alone; the session is
    then bound: [addFrame] no longer throws the missing-model error. *)
Theorem setModel_binds `{V : Vision}
    (s : SequenceFaceLandmarksImpl) (modelPath : string) :
  modelPath <> "" ->
  snd (deserialize modelPath (m_pose_model s)) = None ->
  setModel modelPath s =
  (Ok tt,
   mkImpl (m_frames s) (m_frame_scale s) modelPath get_frontal_face_detector
          (fst (deserialize modelPath (m_pose_model s)))) /\
  (forall frame, fst (addFrame frame (snd (setModel modelPath s))) <> Throw model_not_set).
Proof.
  intros Hne Hok.
  assert (E : setModel modelPath s =
              (Ok tt,
               mkImpl (m_frames s) (m_frame_scale s) modelPath get_frontal_face_detector
                      (fst (deserialize modelPath (m_pose_model s))))).
  { unfold setModel. destruct (decide (modelPath = "")) as [E|_]; [contradiction|].
    unfold bind, modify, get.
    change (m_pose_model (set_detector get_frontal_face_detector
                            (set_model_path modelPath s))) with (m_pose_model s).
    destruct (deserialize modelPath (m_pose_model s)) as [model thrown].
    simpl in Hok. subst thrown. reflexivity. }
  split; [exact E|]. intros frame Hbad. rewrite E in Hbad. simpl snd in Hbad.
  pose proof (addFrame_bound_no_runtime_error
                (mkImpl (m_frames s) (m_frame_scale s) modelPath get_frontal_face_detector
                        (fst (deserialize modelPath (m_pose_model s)))) frame Hne) as N.
  rewrite Hbad in N. exact N.
Qed.

Lemma setModel_binds_witness :
  @setModel Stub.rational Stub.vision "shape_predictor_5_face_landmarks.dat"
    Stub.sample_session =
  (Ok tt,
   @mkImpl Stub.rational Stub.vision
     (m_frames Stub.sample_session) (m_frame_scale Stub.sample_session)
     "shape_predictor_5_face_landmarks.dat"
     (@get_frontal_face_detector Stub.rational Stub.vision)
     (fst (@deserialize Stub.rational Stub.vision "shape_predictor_5_face_landmarks.dat"
             (m_pose_model Stub.sample_session)))) /\
  (forall frame,
     fst (@addFrame Stub.rational Stub.vision frame
            (snd (@setModel Stub.rational Stub.vision
                    "shape_predictor_5_face_landmarks.dat" Stub.sample_session)))
     <> Throw model_not_set).
Proof.
  apply (@setModel_binds Stub.rational Stub.vision Stub.sample_session
           "shape_predictor_5_face_landmarks.dat").
  - discriminate.
  - reflexivity.
Defined.

(** X10. The constructor that takes a model path, given the empty path,
    builds the same session as the constructor without one: no frames, no
    model; its [addFrame] throws the missing-model error. *)
Theorem create_with_empty_path_is_unbound `{V : Vision}
    (frame_scale : float) (frame : Mat pixels) :
  create_with_model "" frame_scale = (Ok tt, create frame_scale) /\
  size (create frame_scale) = 0%nat /\
  addFrame frame (snd (create_with_model "" frame_scale))
  = (Throw model_not_set, create frame_scale).
Proof.
  assert (E : create_with_model "" frame_scale = (Ok tt, create frame_scale)).
  { unfold create_with_model, setModel.
    destruct (decide ("" = "")) as [_|Hne]; [reflexivity|].
    contradiction Hne. reflexivity. }
  split; [exact E|]. split; [reflexivity|].
  rewrite E. simpl snd. apply addFrame_unbound_throws. reflexivity.
Qed.

(** X11. [clear] empties the sequence and keeps the binding: on a bound
    session, [addFrame] after [clear] has the outcome it has without the
    [clear], and leaves a sequence of exactly one frame. *)
Theorem clear_then_addFrame `{V : Vision}
    (s : SequenceFaceLandmarksImpl) (frame : Mat pixels) :
  m_model_path s <> "" ->
  size (snd (clear s)) = 0%nat /\
  fst (addFrame frame (snd (clear s))) = fst (addFrame frame s) /\
  size (snd (addFrame frame (snd (clear s)))) = 1%nat.
Proof.
  intros Hp. split; [reflexivity|].
  change (snd (clear s)) with (set_frames [] s).
  destruct (addFrame_on_other_frames s frame [] Hp) as (r & fr & _ & _ & E1 & E2).
  rewrite E1, E2. split; reflexivity.
Qed.

Lemma clear_then_addFrame_witness :
  @size Stub.rational Stub.vision
    (snd (@clear Stub.rational Stub.vision Stub.sample_session)) = 0%nat /\
  fst (@addFrame Stub.rational Stub.vision (Stub.image 640 480 3)
         (snd (@clear Stub.rational Stub.vision Stub.sample_session)))
  = fst (@addFrame Stub.rational Stub.vision (Stub.image 640 480 3) Stub.sample_session) /\
  @size Stub.rational Stub.vision
    (snd (@addFrame Stub.rational Stub.vision (Stub.image 640 480 3)
            (snd (@clear Stub.rational Stub.vision Stub.sample_session)))) = 1%nat.
Proof.
  apply (@clear_then_addFrame Stub.rational Stub.vision Stub.sample_session
           (Stub.image 640 480 3)).
  discriminate.
Defined.

(** X12. Within [[0, size())] the indexed access returns the stored frame
    and leaves the session as it was. *)
Theorem operator_index_returns_frame `{V : Vision}
    (s : SequenceFaceLandmarksImpl) (i : nat) :
  (i < size s)%nat ->
  exists f, getSequence s !! i = Some f /\ operator_index i s = (Ok f, s).
Proof.
  intros Hi. destruct (lookup_lt_is_Some_2 (m_frames s) i Hi) as [f Hf].
  exists f. split; [exact Hf|].
  unfold operator_index. rewrite (bind_ok get _ s s s) by reflexivity.
  now rewrite Hf.
Qed.

Lemma operator_index_returns_frame_witness :
  exists f,
    @getSequence Stub.rational Stub.vision Stub.sample_session !! 1%nat = Some f /\
    @operator_index Stub.rational Stub.vision 1 Stub.sample_session
    = (Ok f, Stub.sample_session).
Proof.
  apply (@operator_index_returns_frame Stub.rational Stub.vision Stub.sample_session 1%nat).
  vm_compute. lia.
Defined.

(** * Further properties of [load] and [save] *)

(** X13. [load] replaces the sequence, it does not add to it: its result
    does not depend on the frames the session held, loading the same file
    twice is loading it once, and the model binding and the scale are left
    as they were. *)
Theorem load_replaces_frames `{V : Vision} `{P : Protobuf} `{FS : Paths}
    (s : SequenceFaceLandmarksImpl) (filePath : string) (fs : file_store)
    (others : list Frame.t) :
  load filePath fs (set_frames others s) = load filePath fs s /\
  load filePath fs (snd (load filePath fs s)) = load filePath fs s /\
  m_model_path (snd (load filePath fs s)) = m_model_path s /\
  m_frame_scale (snd (load filePath fs s)) = m_frame_scale s /\
  m_detector (snd (load filePath fs s)) = m_detector s /\
  m_pose_model (snd (load filePath fs s)) = m_pose_model s.
Proof.
  rewrite !load_unfold. simpl snd.
  repeat split; reflexivity.
Qed.



(** X15. The two conversions of [save] and [load] on a face.  Converting a
    message face to a [Face] and back gives the same message exactly when
    the message has its box present; a face without a box loads with the
    all-zero box. *)
Theorem save_load_face_iff (io_face : io.Face.t) :
  (save_face (load_face io_face) = io_face <-> io.Face.has_bbox io_face <> None) /\
  (io.Face.has_bbox io_face = None -> Face.bbox (load_face io_face) = Rect.zero).
Proof.
  destruct io_face as [[[l t w h]|] pts]; split.
  - split; [discriminate|]. intros _. unfold save_face, load_face. simpl.
    f_equal. rewrite map_map. rewrite <- (map_id pts) at 2.
    apply map_ext. intros [x y]. reflexivity.
  - discriminate.
  - split; [discriminate|]. intros Hne. contradiction Hne. reflexivity.
  - intros _. reflexivity.
Qed.

(** X16. Two saves and a load.  After [save] to a path that opens and then
    a [save] through another path, [load] from the first path gives the
    first sequence back when the other path names a different file or does
    not open, and the second sequence when both paths name the same file
    (for a protobuf runtime that parses what it serialised, and 32-bit
    fields). *)
Theorem save_load_with_other_file `{V : Vision} `{P : Protobuf} `{FS : Paths}
    (saver other loader : SequenceFaceLandmarksImpl) (filePath otherPath : string)
    (fs : file_store) :
  (forall m, io.sequence_in_range m ->
             fst (ParseFromIstream (Some (SerializeToOstream m))) = m) ->
  sequence_in_range (m_frames saver) ->
  sequence_in_range (m_frames other) ->
  is_Some (file_of filePath) ->
  load filePath (snd (save otherPath other (snd (save filePath saver fs)))) loader
  = (Ok tt,
     set_frames
       (if decide (file_of otherPath = file_of filePath)
        then m_frames other else m_frames saver)
       loader).
Proof.
  intros Hcodec Hsaver Hother [file Hfile].
  rewrite load_unfold. unfold save. simpl snd.
  unfold ifstream, ofstream. rewrite Hfile.
  destruct (decide (file_of otherPath = Some file)) as [Hsame|Hdiff].
  - rewrite Hsame. rewrite lookup_insert_eq.
    rewrite (Hcodec _ (save_sequence_in_range _ Hother)).
    simpl io.Sequence.frames. rewrite load_save_frames. reflexivity.
  - assert (L : forall store : file_store,
               match file_of otherPath with
               | Some g => <[g := SerializeToOstream
                                    (io.Sequence.mk (map save_frame (m_frames other)))]>
                             store
               | None => store
               end !! file = store !! file).
    { intros store. destruct (file_of otherPath) as [g|]; [|reflexivity].
      apply lookup_insert_ne. congruence. }
    rewrite L. rewrite lookup_insert_eq.
    rewrite (Hcodec _ (save_sequence_in_range _ Hsaver)).
    simpl io.Sequence.frames. rewrite load_save_frames. reflexivity.
Qed.

Lemma save_load_with_other_file_witness :
  @load Stub.rational Stub.vision Wire.runtime Stub.paths "a.pb"
    (snd (@save Stub.rational Stub.vision Wire.runtime Stub.paths "./a.pb"
            Stub.bound_session
            (snd (@save Stub.rational Stub.vision Wire.runtime Stub.paths "a.pb"
                    Stub.sample_session ∅))))
    Stub.unbound_session
  = (Ok tt, @set_frames Stub.rational Stub.vision [] Stub.unbound_session) /\
  @load Stub.rational Stub.vision Wire.runtime Stub.paths "a.pb"
    (snd (@save Stub.rational Stub.vision Wire.runtime Stub.paths "b.pb"
            Stub.bound_session
            (snd (@save Stub.rational Stub.vision Wire.runtime Stub.paths "a.pb"
                    Stub.sample_session ∅))))
    Stub.unbound_session
  = (Ok tt, @set_frames Stub.rational Stub.vision Stub.sample_frames Stub.unbound_session).
Proof.
  assert (Hcodec : forall m, io.sequence_in_range m ->
            fst (@ParseFromIstream Wire.runtime (Some (@SerializeToOstream Wire.runtime m)))
            = m).
  { intros m Hm. change (fst (Wire.parse (Some (Wire.write_sequence m))) = m).
    rewrite (WireFacts.parse_write_sequence m Hm). reflexivity. }
  assert (Hsample : sequence_in_range (m_frames Stub.sample_session)).
  { repeat constructor; simpl; lia. }
  assert (Hother : sequence_in_range (m_frames Stub.bound_session)).
  { constructor. }
  assert (Hopen : is_Some (@file_of Stub.paths "a.pb")).
  { exists "a.pb". reflexivity. }
  split.
  - apply (@save_load_with_other_file Stub.rational Stub.vision Wire.runtime Stub.paths
             Stub.sample_session Stub.bound_session Stub.unbound_session
             "a.pb" "./a.pb" ∅ Hcodec Hsample Hother Hopen).
  - apply (@save_load_with_other_file Stub.rational Stub.vision Wire.runtime Stub.paths
             Stub.sample_session Stub.bound_session Stub.unbound_session
             "a.pb" "b.pb" ∅ Hcodec Hsample Hother Hopen).
Defined.

(** * Further properties of the renderer *)

Section RendererExtras.
Context {Scalar : Type}.
Implicit Types (landmarks : list Point.t) (color : Scalar) (thickness : Z).
Implicit Types (img out : list (draw Scalar)).

(** The landmark [render] on a list of at least 68 points. *)
Lemma draws_landmarks landmarks drawLabels color thickness :
  (68 <= length landmarks)%nat ->
  draws (render_landmarks landmarks drawLabels color thickness)
        (landmarks_drawing landmarks drawLabels color thickness).
Proof.
  intros Hlen. unfold render_landmarks, landmarks_drawing.
  apply draws_seq.
  - destruct (Nat.eqb_spec (length landmarks) 68) as [E|N].
    + apply draws_contours. exact E.
    + intros img. rewrite fallback_markers.
      destruct (Nat.leb_spec 68 (length landmarks)) as [_|L]; [reflexivity|lia].
  - destruct drawLabels; [apply draws_labels|apply draws_ret].
Qed.

(** The landmark [render] on a list of fewer than 68 points. *)
Lemma render_landmarks_short landmarks drawLabels color thickness img :
  (length landmarks < 68)%nat ->
  render_landmarks landmarks drawLabels color thickness img
  = (Undefined, img ++ map (marker color thickness) landmarks).
Proof.
  intros Hlen. unfold render_landmarks.
  destruct (Nat.eqb_spec (length landmarks) 68) as [E|_]; [lia|].
  apply bind_undefined. rewrite fallback_markers.
  destruct (Nat.leb_spec 68 (length landmarks)) as [L|_]; [lia|].
  rewrite firstn_all2 by lia. reflexivity.
Qed.

Lemma draws_face (face : Face.t) drawLabels (bbox_color landmarks_color : Scalar)
      thickness :
  renderable face ->
  draws (render_face face drawLabels bbox_color landmarks_color thickness)
        (face_drawing face drawLabels bbox_color landmarks_color thickness).
Proof.
  intros Hr. unfold render_face, face_drawing, render_bbox.
  apply (draws_seq _ _ [Rectangle (Face.bbox face) bbox_color thickness]).
  - intros img. reflexivity.
  - apply draws_landmarks. exact Hr.
Qed.

Lemma draws_faces (faces : list Face.t) drawLabels (bbox_color landmarks_color : Scalar)
      thickness :
  List.Forall renderable faces ->
  draws (render_faces Scalar faces drawLabels bbox_color landmarks_color thickness)
        (concat (map (fun face =>
                        face_drawing face drawLabels bbox_color landmarks_color thickness)
                     faces)).
Proof.
  induction 1 as [|face faces Hf _ IH]; cbn [render_faces map concat].
  - apply draws_ret.
  - apply draws_seq; [apply draws_face; exact Hf|exact IH].
Qed.

(** The face [render] on a face of fewer than 68 landmarks. *)
Lemma render_face_short (face : Face.t) drawLabels (bbox_color landmarks_color : Scalar)
      thickness img :
  (length (Face.landmarks face) < 68)%nat ->
  render_face face drawLabels bbox_color landmarks_color thickness img
  = (Undefined,
     img ++ Rectangle (Face.bbox face) bbox_color thickness
         :: map (marker landmarks_color thickness) (Face.landmarks face)).
Proof.
  intros Hlt. unfold render_face, render_bbox.
  rewrite (bind_ok _ _ img tt (img ++ [Rectangle (Face.bbox face) bbox_color thickness]))
    by reflexivity.
  rewrite render_landmarks_short by exact Hlt.
  now rewrite <- app_assoc.
Qed.

End RendererExtras.

(** X17. Where the landmark [render] reads out of range.  An element of
    the list is read at an index that is not below [size()] exactly when
    the list has fewer than 68 points, the empty list included, with or
    without labels; on a list of at least 68 points every read is in range
    and the call returns.  The outcome [Undefined] marks that first read:
    what a build does after it is not defined by the language and is not
    part of the statement. *)
Theorem render_landmarks_out_of_range_iff {Scalar : Type} (landmarks : list Point.t)
    (drawLabels : bool) (color : Scalar) (thickness : Z) (img : list (draw Scalar)) :
  (fst (render_landmarks landmarks drawLabels color thickness img) = Ok tt
   <-> (68 <= length landmarks)%nat) /\
  (fst (render_landmarks landmarks drawLabels color thickness img) = Undefined
   <-> (length landmarks < 68)%nat).
Proof.
  destruct (Nat.le_gt_cases 68 (length landmarks)) as [Hge|Hlt].
  - rewrite (draws_landmarks landmarks drawLabels color thickness Hge img). simpl fst.
    split; split; intros; try lia; try reflexivity; discriminate.
  - rewrite (render_landmarks_short landmarks drawLabels color thickness img Hlt).
    simpl fst. split; split; intros; try lia; try reflexivity; discriminate.
Qed.

(** X18. On a list of at least 68 points the landmark [render] makes the
    calls of [landmarks_drawing]: the 65 contour segments for exactly 68
    points, otherwise filled markers at the first 68 points only; and with
    [drawLabels] one label for every landmark, also those beyond the 68th. *)
Theorem render_landmarks_drawing {Scalar : Type} (landmarks : list Point.t)
    (drawLabels : bool) (color : Scalar) (thickness : Z) (img : list (draw Scalar)) :
  (68 <= length landmarks)%nat ->
  render_landmarks landmarks drawLabels color thickness img
  = (Ok tt, img ++ landmarks_drawing landmarks drawLabels color thickness) /\
  length (landmarks_drawing landmarks drawLabels color thickness)
  = ((if Nat.eqb (length landmarks) 68 then 65 else 68)
     + (if drawLabels then length landmarks else 0))%nat.
Proof.
  intros Hlen. split.
  - apply draws_landmarks. exact Hlen.
  - unfold landmarks_drawing. rewrite length_app. f_equal.
    + destruct (Nat.eqb (length landmarks) 68).
      * now rewrite length_map.
      * rewrite length_map, length_firstn. lia.
    + destruct drawLabels; [|reflexivity]. now rewrite length_map, length_seq.
Qed.

Lemma render_landmarks_drawing_witness :
  render_landmarks (Stub.synthetic 70) true tt 1 []
  = (Ok tt, [] ++ landmarks_drawing (Stub.synthetic 70) true tt 1) /\
  length (landmarks_drawing (Stub.synthetic 70) true tt 1)
  = ((if Nat.eqb (length (Stub.synthetic 70)) 68 then 65 else 68)
     + (if true then length (Stub.synthetic 70) else 0))%nat.
Proof.
  apply (render_landmarks_drawing (Stub.synthetic 70) true tt 1 []).
  vm_compute. lia.
Defined.

(** X20. The face [render] draws the box first and then the landmarks: for
    a face of at least 68 landmarks it completes with the rectangle
    followed by the calls of the landmark [render]; for a face of fewer it
    has drawn the rectangle and the markers when it runs out of range. *)
Theorem render_face_drawing {Scalar : Type} (face : Face.t) (drawLabels : bool)
    (bbox_color landmarks_color : Scalar) (thickness : Z) (img : list (draw Scalar)) :
  render_face face drawLabels bbox_color landmarks_color thickness img
  = if (68 <=? length (Face.landmarks face))%nat
    then (Ok tt, img ++ face_drawing face drawLabels bbox_color landmarks_color thickness)
    else (Undefined,
          img ++ Rectangle (Face.bbox face) bbox_color thickness
              :: map (marker landmarks_color thickness) (Face.landmarks face)).
Proof.
  destruct (Nat.leb_spec 68 (length (Face.landmarks face))) as [Hge|Hlt].
  - apply draws_face. exact Hge.
  - apply render_face_short. exact Hlt.
Qed.

(** X21. The frame [render] on a frame whose faces all have at least 68
    landmarks completes and draws the faces in order, each as the face
    [render] does; for a frame without faces it draws nothing. *)
Theorem render_frame_drawing {Scalar : Type} (frame : Frame.t) (drawLabels : bool)
    (bbox_color landmarks_color : Scalar) (thickness : Z) (img : list (draw Scalar)) :
  List.Forall renderable (Frame.faces frame) ->
  render_frame frame drawLabels bbox_color landmarks_color thickness img
  = (Ok tt,
     img ++ concat (map (fun face =>
                           face_drawing face drawLabels bbox_color landmarks_color
                                        thickness)
                        (Frame.faces frame))).
Proof.
  intros Hall. unfold render_frame. apply draws_faces. exact Hall.
Qed.

Lemma render_frame_drawing_witness :
  render_frame (Frame.mk [Fixtures.face68; Fixtures.face70] 640 480) true tt tt 1 []
  = (Ok tt,
     [] ++ concat (map (fun face => face_drawing face true tt tt 1)
                       (Frame.faces (Frame.mk [Fixtures.face68; Fixtures.face70] 640 480)))).
Proof.
  apply (render_frame_drawing (Frame.mk [Fixtures.face68; Fixtures.face70] 640 480)
           true tt tt 1 []).
  repeat constructor; unfold renderable; vm_compute; lia.
Defined.

(** X22. Where the frame [render] first reads out of range: in the first
    face of fewer than 68 landmarks.  Up to that read the faces before it
    have been drawn in full, and of the short face the box and one marker
    for each landmark it has.  The outcome [Undefined] marks the read:
    whether a build goes on to later faces is not defined by the language
    and is not part of the statement. *)
Theorem render_frame_first_out_of_range_read {Scalar : Type}
    (pre post : list Face.t) (face : Face.t) (width height : Z) (drawLabels : bool)
    (bbox_color landmarks_color : Scalar) (thickness : Z) (img : list (draw Scalar)) :
  List.Forall renderable pre ->
  (length (Face.landmarks face) < 68)%nat ->
  render_frame (Frame.mk (pre ++ face :: post) width height)
               drawLabels bbox_color landmarks_color thickness img
  = (Undefined,
     img ++ concat (map (fun f =>
                           face_drawing f drawLabels bbox_color landmarks_color thickness)
                        pre)
         ++ Rectangle (Face.bbox face) bbox_color thickness
            :: map (marker landmarks_color thickness) (Face.landmarks face)).
Proof.
  intros Hpre Hshort. unfold render_frame. simpl Frame.faces. revert img.
  induction Hpre as [|f pre Hf _ IH]; intros img.
  - cbn [app render_faces map concat]. apply bind_undefined.
    apply render_face_short. exact Hshort.
  - cbn [app render_faces map concat].
    rewrite (bind_ok _ _ img tt
               (img ++ face_drawing f drawLabels bbox_color landmarks_color thickness))
      by (apply draws_face; exact Hf).
    rewrite IH. now rewrite <- !app_assoc.
Qed.

Lemma render_frame_first_out_of_range_read_witness :
  render_frame
    (Frame.mk ([Fixtures.face68] ++ Fixtures.face5 :: [Fixtures.face70]) 640 480)
    false tt tt 1 []
  = (Undefined,
     [] ++ concat (map (fun f => face_drawing f false tt tt 1) [Fixtures.face68])
        ++ Rectangle (Face.bbox Fixtures.face5) tt 1
           :: map (marker tt 1) (Face.landmarks Fixtures.face5)).
Proof.
  apply (render_frame_first_out_of_range_read [Fixtures.face68] [Fixtures.face70]
           Fixtures.face5 640 480 false tt tt 1 []).
  - repeat constructor; unfold renderable; vm_compute; lia.
  - vm_compute. lia.
Defined.

(** X23. The scale is fixed at construction: no method changes
    [m_frame_scale]; and [setModel] never touches the frames, whether the
    path is empty, the model loads or the deserialisation throws;
    [operator[]] changes nothing at all. *)
Theorem frame_scale_is_fixed `{V : Vision} `{P : Protobuf} `{FS : Paths}
    (s : SequenceFaceLandmarksImpl) (modelPath filePath : string)
    (frame : Mat pixels) (fs : file_store) (i : nat) :
  m_frame_scale (snd (setModel modelPath s)) = m_frame_scale s /\
  m_frames (snd (setModel modelPath s)) = m_frames s /\
  m_frame_scale (snd (addFrame frame s)) = m_frame_scale s /\
  m_frame_scale (snd (clear s)) = m_frame_scale s /\
  m_frame_scale (snd (load filePath fs s)) = m_frame_scale s /\
  snd (operator_index i s) = s.
Proof.
  assert (Hset : m_frame_scale (snd (setModel modelPath s)) = m_frame_scale s /\
                 m_frames (snd (setModel modelPath s)) = m_frames s).
  { unfold setModel. destruct (decide (modelPath = "")) as [_|_]; [split; reflexivity|].
    unfold bind, modify, get.
    change (m_pose_model (set_detector get_frontal_face_detector
                            (set_model_path modelPath s))) with (m_pose_model s).
    destruct (deserialize modelPath (m_pose_model s)) as [model [what|]];
      split; reflexivity. }
  destruct Hset as [Hs Hf]. split; [exact Hs|]. split; [exact Hf|]. split.
  { destruct (decide (m_model_path s = "")) as [E|N].
    - now rewrite (addFrame_unbound_throws s frame E).
    - now rewrite (addFrame_bound_unfold s frame N). }
  split; [reflexivity|]. split.
  { now rewrite load_unfold. }
  unfold operator_index, bind, get. destruct (m_frames s !! i); reflexivity.
Qed.
